(** * ICS ingestion of obsidian-full-calendar: a shallow embedding

    The development follows [src/calendars/parsing/ics.ts] in its later
    revision (the one that declares [DEFAULT_ZONE] and [WEEK_DAYS]):
    [getDate], [getDateL], [getTime], [getTimeL], [specifiesEnd],
    [icsToOFC] and [getEventsFromICS].

    The libraries the file calls are not part of it.  What the code relies
    on from the JavaScript language (property order of plain objects,
    [Date], [%], template literals) and from ical.js ([ICAL.Time],
    [ICAL.Recur], [ICAL.TimezoneService]) is written out below; luxon,
    rrule, the validator of [types.ts] and the ical.js parser are
    interfaces (type classes) that the functions are parametrised by. *)

From Stdlib Require Import ZArith Lia String Ascii List Bool.
From Stdlib Require Import DecimalString.
From stdpp Require Import base tactics option list strings gmap.

Local Open Scope string_scope.

(** ** Exceptions

    A JavaScript exception aborts the enclosing call unless a [try] catches
    it; fallible code is written in the monad [result]. *)

Inductive Exn : Type :=
| TypeError     (* a property of [null] was read *)
| ParserError   (* [ical.parse] rejected the text *)
| RRuleError.   (* [rrulestr] rejected the rule *)

Inductive result (A : Type) : Type :=
| Ok (a : A)
| Throw (e : Exn).
Arguments Ok {A} a.
Arguments Throw {A} e.

#[global] Instance result_ret : MRet result := λ A a, Ok a.
#[global] Instance result_bind : MBind result := λ A B f m,
  match m with
  | Ok a => f a
  | Throw e => Throw e
  end.
#[global] Instance result_fmap : FMap result := λ A B f m,
  match m with
  | Ok a => Ok (f a)
  | Throw e => Throw e
  end.

(** Reading a property of a value that may be [null]. *)
Definition deref {A : Type} (v : option A) : result A :=
  match v with
  | Some a => Ok a
  | None => Throw TypeError
  end.

(** ** JavaScript: strings, numbers, plain objects, dates *)

Module JS.

(** [String(n)] for an integer [n]. *)
Definition numberToString (n : Z) : string :=
  NilEmpty.string_of_int (Z.to_int n).

(** A value spliced into a template literal: [null] prints as ["null"]. *)
Definition templateStr (v : option string) : string := default "null" v.

(** A value used as a property key: [null] names the property ["null"]. *)
Definition toPropertyKey (v : option string) : string := default "null" v.

(** [a % b], the remainder that takes the sign of the dividend. *)
Definition rem (a b : Z) : Z := Z.rem a b.

(** [a.indexOf(x)]: the first position of [x], or [-1]. *)
Fixpoint indexOf_from (i : Z) (x : string) (a : list string) : Z :=
  match a with
  | [] => -1
  | y :: a' => if String.eqb y x then i else indexOf_from (i + 1) x a'
  end.
Definition indexOf (a : list string) (x : string) : Z := indexOf_from 0 x a.

(** [a[i]] for an array of strings; out of range it is [undefined]. *)
Definition index (a : list string) (i : Z) : option string :=
  if (i <? 0)%Z then None else a !! Z.to_nat i.

(** *** Array indices among property keys

    A property key is an array index when it is the canonical decimal form
    of an integer in [0, 2^32 - 2]. *)

Definition arrayIndex (k : string) : option N :=
  match k with
  | EmptyString => None
  | String c rest =>
      if Ascii.eqb c "0" && negb (String.eqb rest "")
      then None
      else match NilEmpty.uint_of_string k with
           | Some d =>
               let n := N.of_uint d in
               if (n <=? 4294967294)%N then Some n else None
           | None => None
           end
  end.

Definition isArrayIndex (k : string) : bool :=
  match arrayIndex k with Some _ => true | None => false end.

(** *** Plain objects used as maps

    An object is the list of its own properties in creation order, with
    distinct keys.  Assigning to an existing key replaces the value where
    it stands; a new key goes last.  Enumeration ([Object.values]) visits
    array-index keys first, in ascending numeric order, and then the other
    keys in creation order. *)

Section Object.
Context {V : Type}.

Fixpoint get (o : list (string * V)) (k : string) : option V :=
  match o with
  | [] => None
  | (k', v) :: o' => if String.eqb k' k then Some v else get o' k
  end.

Fixpoint set (o : list (string * V)) (k : string) (v : V) : list (string * V) :=
  match o with
  | [] => [(k, v)]
  | (k', v') :: o' =>
      if String.eqb k' k then (k', v) :: o' else (k', v') :: set o' k v
  end.

(** [Object.fromEntries(entries)] *)
Definition fromEntries (entries : list (string * V)) : list (string * V) :=
  foldl (λ o e, set o e.1 e.2) [] entries.

Fixpoint insertByIndex (n : N) (v : V) (l : list (N * V)) : list (N * V) :=
  match l with
  | [] => [(n, v)]
  | (m, w) :: l' =>
      if (n <? m)%N then (n, v) :: (m, w) :: l' else (m, w) :: insertByIndex n v l'
  end.

(** The properties with an array-index key, in ascending order of index. *)
Definition indexed (o : list (string * V)) : list (N * V) :=
  foldr (λ e acc, match arrayIndex e.1 with
                  | Some n => insertByIndex n e.2 acc
                  | None => acc
                  end) [] o.

(** The values of the other properties, in creation order. *)
Definition named (o : list (string * V)) : list V :=
  omap (λ e, if isArrayIndex e.1 then None else Some e.2) o.

(** [Object.values(o)] *)
Definition values (o : list (string * V)) : list V :=
  ((snd <$> indexed o) ++ named o)%list.

End Object.

End JS.

(** *** [Date]

    A [Date] is its time value, milliseconds since the epoch; the dates
    this program builds come from four-digit years, far inside the range
    where [TimeClip] is the identity.  The host's time zone enters through
    [LocalTZA], the offset of local time at an instant. *)

Module JSDate.

Definition msPerDay : Z := 86400000.
Definition Day (t : Z) : Z := t / msPerDay.
Definition WeekDay (t : Z) : Z := (Day t + 4) mod 7.

(** Days from 1970-01-01 to the civil date [y]-[m]-[d], [m] in 1..12. *)
Definition daysFromCivil (y m d : Z) : Z :=
  let y' := if (m <=? 2)%Z then (y - 1)%Z else y in
  let era := (y' / 400)%Z in
  let yoe := (y' - era * 400)%Z in
  let mp := (if (m <=? 2) then m + 9 else m - 3)%Z in
  let doy := ((153 * mp + 2) / 5 + d - 1)%Z in
  let doe := (yoe * 365 + yoe / 4 - yoe / 100 + doy)%Z in
  (era * 146097 + doe - 719468)%Z.

Definition MakeDay (year month date : Z) : Z :=
  (daysFromCivil (year + month / 12) (month mod 12 + 1) 1 + date - 1)%Z.
Definition MakeTime (hour min sec ms : Z) : Z :=
  (hour * 3600000 + min * 60000 + sec * 1000 + ms)%Z.
Definition MakeDate (day time : Z) : Z := (day * msPerDay + time)%Z.
Definition MakeFullYear (year : Z) : Z :=
  if ((0 <=? year) && (year <=? 99))%Z then (1900 + year)%Z else year.

(** [Date.UTC(year, month, date, hours, minutes, seconds)] *)
Definition UTC (year month date hours minutes seconds : Z) : Z :=
  MakeDate (MakeDay (MakeFullYear year) month date) (MakeTime hours minutes seconds 0).

(** The host environment of the script. *)
Class Runtime : Type := { LocalTZA : Z → bool → Z }.

Section Local.
Context `{Runtime}.

Definition LocalTime (t : Z) : Z := (t + LocalTZA t true)%Z.

(** [new Date(year, month, date, hours, minutes, seconds, ms)]: the fields
    are read as local time. *)
Definition construct (year month date hours minutes seconds ms : Z) : Z :=
  let t := MakeDate (MakeDay (MakeFullYear year) month date)
                    (MakeTime hours minutes seconds ms) in
  (t - LocalTZA t false)%Z.

Definition getUTCDay (t : Z) : Z := WeekDay t.
Definition getDay (t : Z) : Z := WeekDay (LocalTime t).

End Local.

End JSDate.

(** ** ical.js: times, zones, recurrence rules, events *)

Module ICAL.

(** The fields of an [ICAL.Time] as the parser delivers them; [timezone]
    is the [TZID] parameter, ["Z"] for a UTC value, absent for a floating
    value and for a date. *)
Record TimeData : Type := {
  year : Z; month : Z; day : Z;
  hour : Z; minute : Z; second : Z;
  isDate : bool;
  timezone : option string
}.

(** An [ICAL.Timezone] built from a VTIMEZONE component: its name and the
    offset from UTC, in seconds, that its rules give at a local time. *)
Record Timezone : Type := {
  tzid : string;
  tz_utcOffset : TimeData → result Z
}.

Inductive Zone : Type :=
| utcTimezone
| localTimezone               (* floating *)
| vtimezone (tz : Timezone).

(** [ICAL.TimezoneService]: the process-wide table of zones by name. *)
Abbreviation Registry := (gmap string Zone).

(** [ICAL.TimezoneService.register(timezone.tzid, timezone)] *)
Definition register (R : Registry) (tz : Timezone) : Registry :=
  <[tzid tz := vtimezone tz]> R.

(** An [ICAL.Time]: the fields and the zone object resolved when the value
    is first read. *)
Record Time : Type := { data : TimeData; zone : Zone }.

Definition fromData (R : Registry) (d : TimeData) : Time :=
  {| data := d;
     zone := match timezone d with
             | Some z => default localTimezone (R !! z)
             | None => localTimezone
             end |}.

Definition pad2 (n : Z) : string :=
  let s := JS.numberToString n in
  match String.length s with
  | 0 => "00"
  | 1 => "0" +:+ s
  | _ => s
  end.

Definition isUtc (z : Zone) : bool :=
  match z with utcTimezone => true | _ => false end.
Definition isFloating (z : Zone) : bool :=
  match z with localTimezone => true | _ => false end.

(** [Time.prototype.toString] *)
Definition toString (t : Time) : string :=
  let d := data t in
  let date := JS.numberToString (year d) +:+ "-" +:+ pad2 (month d) +:+ "-" +:+ pad2 (day d) in
  if isDate d then date
  else date +:+ "T" +:+ pad2 (hour d) +:+ ":" +:+ pad2 (minute d) +:+ ":" +:+ pad2 (second d)
            +:+ (if isUtc (zone t) then "Z" else "").

(** [Time.prototype.utcOffset]: UTC and floating times have offset 0. *)
Definition utcOffset (t : Time) : result Z :=
  match zone t with
  | utcTimezone | localTimezone => Ok 0%Z
  | vtimezone tz => tz_utcOffset tz (data t)
  end.

(** [Time.prototype.toUnixTime], in seconds. *)
Definition toUnixTime (t : Time) : result Z :=
  offset ← utcOffset t;
  let d := data t in
  Ok (JSDate.UTC (year d) (month d - 1) (day d) (hour d) (minute d) (second d - offset) / 1000)%Z.

(** [Time.prototype.toJSDate]: a floating time is read in the host's local
    time, any other through its Unix time. *)
Definition toJSDate `{JSDate.Runtime} (t : Time) : result Z :=
  let d := data t in
  if isFloating (zone t) then
    if isDate d
    then Ok (JSDate.construct (year d) (month d - 1) (day d) 0 0 0 0)
    else Ok (JSDate.construct (year d) (month d - 1) (day d) (hour d) (minute d) (second d) 0)
  else
    u ← toUnixTime t; Ok (u * 1000)%Z.

(** An [ICAL.Recur]; [parts] is the object holding the BYxxx lists, its
    keys in creation order. *)
Record Recur : Type := {
  freq : string;
  count : option Z;
  interval : Z;
  parts : list (string * list string);
  until : option string;       (* as rendered by [toICALString] *)
  wkst : option string         (* a week start other than Monday *)
}.

(** [r.parts[k] = v] *)
Definition setPart (r : Recur) (k : string) (v : list string) : Recur :=
  {| freq := freq r; count := count r; interval := interval r;
     parts := JS.set (parts r) k v;
     until := until r; wkst := wkst r |}.

Definition join (sep : string) (l : list string) : string :=
  match l with
  | [] => ""
  | x :: l' => foldl (λ acc y, acc +:+ sep +:+ y) x l'
  end.

(** [Recur.prototype.toString] *)
Definition Recur_toString (r : Recur) : string :=
  let s := "FREQ=" +:+ freq r in
  let s := match count r with
           | Some c => if (c =? 0)%Z then s else s +:+ ";COUNT=" +:+ JS.numberToString c
           | None => s
           end in
  let s := if (1 <? interval r)%Z then s +:+ ";INTERVAL=" +:+ JS.numberToString (interval r) else s in
  let s := foldl (λ acc kv, acc +:+ ";" +:+ kv.1 +:+ "=" +:+ join "," kv.2) s (parts r) in
  let s := match until r with Some u => s +:+ ";UNTIL=" +:+ u | None => s end in
  match wkst r with Some w => s +:+ ";WKST=" +:+ w | None => s end.

(** What the program reads of an [ICAL.Event] and of its component.  The
    getters [startDate] and [endDate] are recorded by their value: [None]
    when reading them yields no time (no DTSTART, or a value that cannot
    be built); ical.js derives [endDate] from DTSTART and DURATION when
    there is no DTEND. *)
Record Event : Type := {
  uid : option string;
  summary : option string;
  startDate : option TimeData;
  endDate : option TimeData;
  recurrenceId : option TimeData;
  rrule : option Recur;          (* [getFirstProperty("rrule")], its first value *)
  hasRDate : bool;
  exdate : list TimeData;        (* [getAllProperties("exdate")], first values *)
  hasDtend : bool;
  hasDuration : bool
}.

(** [Event.prototype.isRecurring] *)
Definition isRecurring (e : Event) : bool :=
  bool_decide (is_Some (rrule e)) || hasRDate e.

(** The component tree of a calendar text, as far as the program walks it. *)
Record Component : Type := {
  vtimezone_subcomponents : list Timezone;
  vevent_subcomponents : list Event
}.

End ICAL.

(** ** The canonical event of [types.ts] *)

Inductive Timing : Type :=
| AllDay
| Timed (startTime endTime : option string).

(** An [OFCEvent] of type ["single"] or ["rrule"].  A field that luxon
    could not render is [null]; [null] and [undefined] are both [None]. *)
Inductive OFCEvent : Type :=
| Single (id : string) (title : option string)
         (date : option string) (endDate : option string) (timing : Timing)
| RRule (id : string) (title : option string) (rrule : string)
        (skipDates : list (option string)) (startDate : option string)
        (timing : Timing).

Definition ofc_id (e : OFCEvent) : string :=
  match e with Single id _ _ _ _ | RRule id _ _ _ _ _ => id end.
Definition ofc_timing (e : OFCEvent) : Timing :=
  match e with Single _ _ _ _ tm | RRule _ _ _ _ _ tm => tm end.
Definition ofc_skipDates (e : OFCEvent) : list (option string) :=
  match e with Single _ _ _ _ _ => [] | RRule _ _ _ skip _ _ => skip end.
Definition isRRule (e : OFCEvent) : bool :=
  match e with RRule _ _ _ _ _ _ => true | Single _ _ _ _ _ => false end.

(** ** The libraries behind the converter *)

(** luxon.  [fromISO tstr z] is [DateTime.fromISO(tstr, {zone: new
    IANAZone(z)})], [fromSeconds s z] is [DateTime.fromSeconds(s, {zone:
    z})], [setZone t z] is [t.setZone(new IANAZone(z))]; [toISOTime] is
    called with the options of the source (no offset, no prefix, no
    seconds, no milliseconds).  An invalid [DateTime] renders as [null]. *)
Class Luxon : Type := {
  DateTime : Type;
  fromISO : string → string → DateTime;
  fromSeconds : Z → string → DateTime;
  setZone : DateTime → string → DateTime;
  toISODate : DateTime → option string;
  toISOTime : DateTime → option string
}.

(** [setZone] to the zone a [DateTime] was read in returns the same
    [DateTime] (an invalid one stays invalid): it renders the same. *)
Class LuxonLaws `{Luxon} : Prop := {
  setZone_same_date : ∀ tstr z,
    toISODate (setZone (fromISO tstr z) z) = toISODate (fromISO tstr z);
  setZone_same_time : ∀ tstr z,
    toISOTime (setZone (fromISO tstr z) z) = toISOTime (fromISO tstr z)
}.

(** rrule, the validator of [types.ts], and the ical.js parser:
    [rrulestr s] is [rrulestr(s).toString()], [ical_parse text] is
    [new ical.Component(ical.parse(text))]. *)
Class Collaborators : Type := {
  rrulestr : string → result string;
  validateEvent : OFCEvent → option OFCEvent;
  ical_parse : string → result ICAL.Component
}.

(** ** The converter *)

Definition DEFAULT_ZONE : string := "Asia/Seoul".
Definition WEEK_DAYS : list string := ["MO"; "TU"; "WE"; "TH"; "FR"; "SA"; "SU"].

Section Converter.
Context `{Luxon} `{JSDate.Runtime} `{Collaborators}.

Definition getDate (t : ICAL.Time) : result (option string) :=
  u ← ICAL.toUnixTime t;
  Ok (toISODate (fromSeconds u DEFAULT_ZONE)).

(** [!tzone] holds for an absent and for an empty name. *)
Definition falsy (tzone : option string) : bool :=
  match tzone with
  | Some z => String.eqb z ""
  | None => true
  end.

Definition getDateL (tstr : string) (tzone : option string) : option string :=
  let tzone := if falsy tzone then DEFAULT_ZONE else default "" tzone in
  let tzone := if String.eqb tzone "Z" then "UTC" else tzone in
  let t := fromISO tstr tzone in
  toISODate (setZone t DEFAULT_ZONE).

Definition getTime (t : ICAL.Time) : result (option string) :=
  if ICAL.isDate (ICAL.data t) then Ok (Some "00:00")
  else u ← ICAL.toUnixTime t;
       Ok (toISOTime (fromSeconds u DEFAULT_ZONE)).

Definition getTimeL (tstr : string) (tzone : option string) : option string :=
  let tzone := if falsy tzone then DEFAULT_ZONE else default "" tzone in
  let tzone := if String.eqb tzone "Z" then "UTC" else tzone in
  let t := fromISO tstr tzone in
  toISOTime (setZone t DEFAULT_ZONE).

Definition specifiesEnd (iCalEvent : ICAL.Event) : bool :=
  ICAL.hasDtend iCalEvent || ICAL.hasDuration iCalEvent.

(** The callback of [fv.parts["BYDAY"].map]; an [undefined] element of the
    new list would print as the empty string when the rule is rendered. *)
Definition shiftDay (day_diff : Z) (p : string) : string :=
  let wi := JS.rem (JS.indexOf WEEK_DAYS p + day_diff + 7) 7 in
  default "" (JS.index WEEK_DAYS wi).

(** The body of [if (fv.parts["BYDAY"]) { ... }]: the list is replaced in
    the rule object itself. *)
Definition shiftByDay (day_diff : Z) (fv : ICAL.Recur) : ICAL.Recur :=
  match JS.get (ICAL.parts fv) "BYDAY" with
  | Some tokens => ICAL.setPart fv "BYDAY" (shiftDay day_diff <$> tokens)
  | None => fv
  end.

(** [day_diff] of a start time. *)
Definition dayDiff (start : ICAL.Time) : result Z :=
  js ← ICAL.toJSDate start;
  Ok (JSDate.getUTCDay js - JSDate.getDay js)%Z.

(** The rule object after lines 73 to 85: the RRULE property's value,
    rewritten in place when [day_diff != 0].  [None] when the component
    has no RRULE property and the block did not have to read it. *)
Definition adjustedRule (R : ICAL.Registry) (input : ICAL.Event) : result (option ICAL.Recur) :=
  start ← deref (ICAL.fromData R <$> ICAL.startDate input);
  day_diff ← dayDiff start;
  if (day_diff =? 0)%Z then Ok (ICAL.rrule input)
  else fv ← deref (ICAL.rrule input); Ok (Some (shiftByDay day_diff fv)).

(** The spread [...(allDay ? {allDay: true} : {allDay: false, startTime,
    endTime})], the same in both branches. *)
Definition timeInfo (R : ICAL.Registry) (input : ICAL.Event) (start : ICAL.Time) : result Timing :=
  if ICAL.isDate (ICAL.data start) then Ok AllDay
  else
    end_ ← deref (ICAL.fromData R <$> ICAL.endDate input);
    Ok (Timed (getTimeL (ICAL.toString start) (ICAL.timezone (ICAL.data start)))
              (getTimeL (ICAL.toString end_) (ICAL.timezone (ICAL.data start)))).

Definition icsToOFC (R : ICAL.Registry) (input : ICAL.Event) : result OFCEvent :=
  if ICAL.isRecurring input then
    start ← deref (ICAL.fromData R <$> ICAL.startDate input);
    let exdates :=
      (λ d, let exdate := ICAL.fromData R d in
            getDateL (ICAL.toString exdate) (ICAL.timezone (ICAL.data exdate)))
        <$> ICAL.exdate input in
    fv ← adjustedRule R input;
    fv ← deref fv;
    rrule ← rrulestr (ICAL.Recur_toString fv);
    idDate ← getDate start;
    let id := "ics::" +:+ JS.templateStr (ICAL.uid input) +:+ "::"
                      +:+ JS.templateStr idDate +:+ "::recurring" in
    let startDate := getDateL (ICAL.toString start) (ICAL.timezone (ICAL.data start)) in
    timing ← timeInfo R input start;
    Ok (RRule id (ICAL.summary input) rrule exdates startDate timing)
  else
    start ← deref (ICAL.fromData R <$> ICAL.startDate input);
    let date := getDateL (ICAL.toString start) (ICAL.timezone (ICAL.data start)) in
    let endDate :=
      match (if specifiesEnd input then ICAL.fromData R <$> ICAL.endDate input else None) with
      | Some end_ => getDateL (ICAL.toString end_) (ICAL.timezone (ICAL.data end_))
      | None => None
      end in
    let id := "ics::" +:+ JS.templateStr (ICAL.uid input) +:+ "::"
                      +:+ JS.templateStr date +:+ "::single" in
    timing ← timeInfo R input start;
    Ok (Single id (ICAL.summary input) date
               (if bool_decide (date = endDate) then None else endDate) timing).

(** The callback of [.filter] on the events: both [toJSDate] calls inside
    the [try]. *)
Definition resolves (R : ICAL.Registry) (evt : ICAL.Event) : bool :=
  match (start ← deref (ICAL.fromData R <$> ICAL.startDate evt);
         _ ← ICAL.toJSDate start;
         end_ ← deref (ICAL.fromData R <$> ICAL.endDate evt);
         ICAL.toJSDate end_) with
  | Ok _ => true
  | Throw _ => false
  end.

Definition isException (e : ICAL.Event) : bool :=
  match ICAL.recurrenceId e with Some _ => true | None => false end.

(** What the body of the loop over [recurrenceExceptions] does to the base
    event it found. *)
Definition mergeInto (baseEvent event : OFCEvent) : OFCEvent :=
  match baseEvent, event with
  | RRule id title rrule skipDates startDate timing, Single _ _ date _ _ =>
      RRule id title rrule (skipDates ++ [date])%list startDate timing
  | _, _ => baseEvent
  end.

(** One round of the loop over [recurrenceExceptions]; the push changes
    the object that [baseEvents] holds under [uid].  (A [uid] that names a
    member of [Object.prototype] finds that member, which is no ["rrule"]
    event: the round ends at the second [continue], as it does here.) *)
Definition mergeException (baseEvents : list (string * OFCEvent))
    (x : option string * OFCEvent) : list (string * OFCEvent) :=
  let uid := JS.toPropertyKey x.1 in
  match JS.get baseEvents uid with
  | None => baseEvents
  | Some baseEvent =>
      if isRRule baseEvent && negb (isRRule x.2)
      then JS.set baseEvents uid (mergeInto baseEvent x.2)
      else baseEvents
  end.

Definition toEntry (R : ICAL.Registry) (e : ICAL.Event) : result (option string * OFCEvent) :=
  o ← icsToOFC R e; Ok (ICAL.uid e, o).

Definition entryKey (x : option string * OFCEvent) : string * OFCEvent :=
  (JS.toPropertyKey x.1, x.2).

(** [baseEvents] after the loop, and [recurrenceExceptions]. *)
Definition reconcile (R : ICAL.Registry) (events : list ICAL.Event)
    : result (list (string * OFCEvent) * list (option string * OFCEvent)) :=
  base ← mapM (toEntry R) (List.filter (λ e, negb (isException e)) events);
  let baseEvents := JS.fromEntries (entryKey <$> base) in
  recurrenceExceptions ← mapM (toEntry R) (List.filter isException events);
  Ok (foldl mergeException baseEvents recurrenceExceptions, recurrenceExceptions).

(** [allEvents] *)
Definition allEvents (R : ICAL.Registry) (events : list ICAL.Event) : result (list OFCEvent) :=
  r ← reconcile R events;
  Ok (JS.values r.1 ++ (snd <$> r.2))%list.

(** [getEventsFromICS] from the filtered [events] on. *)
Definition convertEvents (R : ICAL.Registry) (events : list ICAL.Event) : result (list OFCEvent) :=
  match allEvents R events with
  | Ok all => Ok (omap validateEvent all)
  | Throw e => Throw e
  end.

(** The zone table once the VTIMEZONE components of a calendar are
    registered, and the events that pass the [.filter]. *)
Definition registerAll (R : ICAL.Registry) (component : ICAL.Component) : ICAL.Registry :=
  foldl ICAL.register R (ICAL.vtimezone_subcomponents component).

Definition retained (R : ICAL.Registry) (component : ICAL.Component) : list ICAL.Event :=
  List.filter (resolves R) (ICAL.vevent_subcomponents component).

(** [getEventsFromICS text], run with the zone table [R]; it returns the
    outcome and the zone table it leaves behind.  Times are built when
    they are first read, which is after the registration. *)
Definition getEventsFromICS (text : string) (R : ICAL.Registry)
    : result (list OFCEvent) * ICAL.Registry :=
  match ical_parse text with
  | Throw e => (Throw e, R)
  | Ok component =>
      let R' := registerAll R component in
      (convertEvents R' (retained R' component), R')
  end.

End Converter.

(** ** The Weekday Rule Adjuster as the specification words it

    Section 4.2 of the specification takes the day shift between the
    start's weekday in UTC and its weekday in the local calendar of the
    zone it was written in, and moves every BYDAY token that many places
    along [WEEK_DAYS]. *)

Module Claimed.

(** The weekday, 0 = Sunday, of the calendar date a time is written with. *)
Definition sourceWeekday (start : ICAL.Time) : Z :=
  let d := ICAL.data start in
  ((JSDate.daysFromCivil (ICAL.year d) (ICAL.month d) (ICAL.day d) + 4) mod 7)%Z.

Definition dayShift (start : ICAL.Time) (js : Z) : Z :=
  ((JSDate.WeekDay js - sourceWeekday start) mod 7)%Z.

(** The token [dayShift] places after [p] in [WEEK_DAYS], counting a
    token that is not in the list from position [-1]. *)
Definition rotateToken (dayShift : Z) (p : string) : string :=
  nth (Z.to_nat ((JS.indexOf WEEK_DAYS p + dayShift) mod 7)) WEEK_DAYS "".

Definition rotateRule (dayShift : Z) (fv : ICAL.Recur) : ICAL.Recur :=
  match JS.get (ICAL.parts fv) "BYDAY" with
  | Some tokens =>
      if bool_decide (dayShift = 0%Z) then fv
      else ICAL.setPart fv "BYDAY" (rotateToken dayShift <$> tokens)
  | None => fv
  end.

End Claimed.

(** ** A small platform to run the converter on

    Stand-ins for the libraries, enough to evaluate the converter on
    concrete calendars: a luxon with a handful of zones at fixed offsets
    (their January offsets), a host in Seoul, an rrule that prints a rule
    back under the [RRULE:] prefix, a validator that drops events without
    a title, and a parser that knows the sample texts below. *)

Module Sample.

(** Offsets from UTC in seconds. *)
Definition zoneOffset (z : string) : option Z :=
  if String.eqb z "Asia/Seoul" then Some 32400%Z
  else if String.eqb z "UTC" then Some 0%Z
  else if String.eqb z "America/Los_Angeles" then Some (-28800)%Z
  else if String.eqb z "Europe/Berlin" then Some 3600%Z
  else None.

Definition num (s : string) : option Z :=
  if String.eqb s "" then None
  else (λ d, Z.of_N (N.of_uint d)) <$> NilEmpty.uint_of_string s.

(** Seconds since the epoch of the local time written in an ISO string
    [YYYY-MM-DD] or [YYYY-MM-DDTHH:MM:SS], and whether it ends in [Z]. *)
Definition parseISO (s : string) : option (Z * bool) :=
  y ← num (substring 0 4 s);
  m ← num (substring 5 2 s);
  d ← num (substring 8 2 s);
  let days := JSDate.daysFromCivil y m d in
  if (String.length s =? 10)%nat then Some (days * 86400, false)%Z
  else
    h ← num (substring 11 2 s);
    mi ← num (substring 14 2 s);
    sec ← num (substring 17 2 s);
    let t := (days * 86400 + h * 3600 + mi * 60 + sec)%Z in
    if (String.length s =? 19)%nat then Some (t, false)
    else if String.eqb (substring 19 1 s) "Z" then Some (t, true)
    else None.

(** The civil date of a day number. *)
Definition civilFromDays (z : Z) : Z * Z * Z :=
  let z := (z + 719468)%Z in
  let era := (z / 146097)%Z in
  let doe := (z - era * 146097)%Z in
  let yoe := ((doe - doe / 1460 + doe / 36524 - doe / 146096) / 365)%Z in
  let doy := (doe - (365 * yoe + yoe / 4 - yoe / 100))%Z in
  let mp := ((5 * doy + 2) / 153)%Z in
  let d := (doy - (153 * mp + 2) / 5 + 1)%Z in
  let m := (if (mp <? 10) then mp + 3 else mp - 9)%Z in
  let y := (yoe + era * 400 + (if (m <=? 2) then 1 else 0))%Z in
  (y, m, d).

Definition pad4 (n : Z) : string :=
  let s := JS.numberToString n in
  match String.length s with
  | 1 => "000" +:+ s
  | 2 => "00" +:+ s
  | 3 => "0" +:+ s
  | _ => s
  end.

(** A [DateTime]: an instant in seconds and the offset of its zone;
    [None] is an invalid [DateTime]. *)
Definition isoDate (t : option (Z * Z)) : option string :=
  match t with
  | Some (ts, off) =>
      let '(y, m, d) := civilFromDays ((ts + off) / 86400) in
      Some (pad4 y +:+ "-" +:+ ICAL.pad2 m +:+ "-" +:+ ICAL.pad2 d)
  | None => None
  end.

Definition isoTime (t : option (Z * Z)) : option string :=
  match t with
  | Some (ts, off) =>
      let s := ((ts + off) mod 86400)%Z in
      let hm := ICAL.pad2 (s / 3600) +:+ ":" +:+ ICAL.pad2 (s mod 3600 / 60) in
      Some (if (s mod 60 =? 0)%Z then hm else hm +:+ ":" +:+ ICAL.pad2 (s mod 60))
  | None => None
  end.

Definition isoParse (tstr z : string) : option (Z * Z) :=
  match zoneOffset z, parseISO tstr with
  | Some off, Some (local, utc) => Some (if utc then local else local - off, off)%Z
  | _, _ => None
  end.

Definition atSeconds (s : Z) (z : string) : option (Z * Z) :=
  match zoneOffset z with
  | Some off => Some (s, off)
  | None => None
  end.

Definition inZone (t : option (Z * Z)) (z : string) : option (Z * Z) :=
  match t, zoneOffset z with
  | Some (ts, _), Some off => Some (ts, off)
  | _, _ => None
  end.

#[export] Instance luxon : Luxon := {|
  DateTime := option (Z * Z);
  fromISO := isoParse;
  fromSeconds := atSeconds;
  setZone := inZone;
  toISODate := isoDate;
  toISOTime := isoTime
|}.

#[export] Instance host_in_Seoul : JSDate.Runtime := {|
  JSDate.LocalTZA _ _ := 32400000%Z
|}.

(** The VTIMEZONE the sample calendars declare. *)
Definition LosAngeles : ICAL.Timezone :=
  {| ICAL.tzid := "America/Los_Angeles";
     ICAL.tz_utcOffset _ := Ok (-28800)%Z |}.

(** The zones ical.js knows before any calendar is read. *)
Definition builtin : ICAL.Registry :=
  {[ "UTC" := ICAL.utcTimezone; "Z" := ICAL.utcTimezone; "GMT" := ICAL.utcTimezone ]}.

Definition dateTime (y m d h mi s : Z) (tz : option string) : ICAL.TimeData :=
  {| ICAL.year := y; ICAL.month := m; ICAL.day := d;
     ICAL.hour := h; ICAL.minute := mi; ICAL.second := s;
     ICAL.isDate := false; ICAL.timezone := tz |}.

Definition date (y m d : Z) : ICAL.TimeData :=
  {| ICAL.year := y; ICAL.month := m; ICAL.day := d;
     ICAL.hour := 0; ICAL.minute := 0; ICAL.second := 0;
     ICAL.isDate := true; ICAL.timezone := None |}.

Definition weekly (byday : list string) : ICAL.Recur :=
  {| ICAL.freq := "WEEKLY"; ICAL.count := None; ICAL.interval := 1;
     ICAL.parts := [("BYDAY", byday)]; ICAL.until := None; ICAL.wkst := None |}.

Definition daily : ICAL.Recur :=
  {| ICAL.freq := "DAILY"; ICAL.count := None; ICAL.interval := 1;
     ICAL.parts := []; ICAL.until := None; ICAL.wkst := None |}.

(** A timed VEVENT with UID, SUMMARY, DTSTART and DTEND. *)
Definition vevent (uid title : string) (start end_ : ICAL.TimeData)
    (rule : option ICAL.Recur) (rid : option ICAL.TimeData) : ICAL.Event :=
  {| ICAL.uid := Some uid; ICAL.summary := Some title;
     ICAL.startDate := Some start; ICAL.endDate := Some end_;
     ICAL.recurrenceId := rid; ICAL.rrule := rule; ICAL.hasRDate := false;
     ICAL.exdate := []; ICAL.hasDtend := true; ICAL.hasDuration := false |}.

(** A VEVENT without DTSTART. *)
Definition noStart (uid title : string) : ICAL.Event :=
  {| ICAL.uid := Some uid; ICAL.summary := Some title;
     ICAL.startDate := None; ICAL.endDate := None;
     ICAL.recurrenceId := None; ICAL.rrule := None; ICAL.hasRDate := false;
     ICAL.exdate := []; ICAL.hasDtend := false; ICAL.hasDuration := false |}.

Definition utc (d h : Z) : ICAL.TimeData := dateTime 2024 1 d h 0 0 (Some "Z").

(** A daily series from day [d] of January 2024, 01:00 to 02:00 UTC. *)
Definition series (uid title : string) (d : Z) : ICAL.Event :=
  vevent uid title (utc d 1) (utc d 2) (Some daily) None.

(** A single event on day [d], 01:00 to 02:00 UTC. *)
Definition single (uid title : string) (d : Z) : ICAL.Event :=
  vevent uid title (utc d 1) (utc d 2) None None.

(** An override of the occurrence of [uid] on day [d], moved to 03:00. *)
Definition override (uid title : string) (d : Z) (rule : option ICAL.Recur) : ICAL.Event :=
  vevent uid title (utc d 3) (utc d 4) rule (Some (utc d 1)).

Definition calendar (zones : list ICAL.Timezone) (events : list ICAL.Event) : ICAL.Component :=
  {| ICAL.vtimezone_subcomponents := zones;
     ICAL.vevent_subcomponents := events |}.

(** *** Sample calendars *)

(** Monday 2024-01-01 20:00 in UTC, which is Tuesday 05:00 in Seoul. *)
Definition mondayEveningUTC : ICAL.Event :=
  vevent "u" "Sync" (utc 1 20) (utc 1 21) (Some (weekly ["MO"])) None.

Definition utc_weekly_ics : string :=
"BEGIN:VCALENDAR
BEGIN:VEVENT
UID:u
SUMMARY:Sync
DTSTART:20240101T200000Z
DTEND:20240101T210000Z
RRULE:FREQ=WEEKLY;BYDAY=MO
END:VEVENT
END:VCALENDAR".

(** Monday 2024-01-01 20:00 in Los Angeles, which is Tuesday 04:00 in UTC
    and Tuesday 13:00 in Seoul. *)
Definition mondayEveningLA : ICAL.Event :=
  vevent "la" "Standup"
    (dateTime 2024 1 1 20 0 0 (Some "America/Los_Angeles"))
    (dateTime 2024 1 1 21 0 0 (Some "America/Los_Angeles"))
    (Some (weekly ["MO"])) None.

Definition la_weekly_ics : string :=
"BEGIN:VCALENDAR
BEGIN:VTIMEZONE
TZID:America/Los_Angeles
BEGIN:STANDARD
DTSTART:19701101T020000
TZOFFSETFROM:-0800
TZOFFSETTO:-0800
END:STANDARD
END:VTIMEZONE
BEGIN:VEVENT
UID:la
SUMMARY:Standup
DTSTART;TZID=America/Los_Angeles:20240101T200000
DTEND;TZID=America/Los_Angeles:20240101T210000
RRULE:FREQ=WEEKLY;BYDAY=MO
END:VEVENT
END:VCALENDAR".

(** A floating Monday 2024-01-08 08:00; on a host in Seoul its [Date] is
    Sunday 23:00 in UTC. *)
Definition earlyMonday : ICAL.Event :=
  vevent "m" "Planning"
    (dateTime 2024 1 8 8 0 0 None) (dateTime 2024 1 8 9 0 0 None)
    (Some (weekly ["MO"; "1MO"; "SU"])) None.

Definition early_monday_ics : string :=
"BEGIN:VCALENDAR
BEGIN:VEVENT
UID:m
SUMMARY:Planning
DTSTART:20240108T080000
DTEND:20240108T090000
RRULE:FREQ=WEEKLY;BYDAY=MO,1MO,SU
END:VEVENT
END:VCALENDAR".

(** A floating series, every day at 20:00. *)
Definition floatingSeries : ICAL.Event :=
  vevent "f" "Dinner"
    (dateTime 2024 1 1 20 0 0 None) (dateTime 2024 1 1 21 0 0 None)
    (Some daily) None.

Definition floating_ics : string :=
"BEGIN:VCALENDAR
BEGIN:VEVENT
UID:f
SUMMARY:Dinner
DTSTART:20240101T200000
DTEND:20240101T210000
RRULE:FREQ=DAILY
END:VEVENT
END:VCALENDAR".

(** A start in Los Angeles and an end written in Berlin time: 20:00 in
    Los Angeles to 06:00 in Berlin, one hour later. *)
Definition crossZone : ICAL.Event :=
  vevent "x" "Call"
    (dateTime 2024 1 1 20 0 0 (Some "America/Los_Angeles"))
    (dateTime 2024 1 2 6 0 0 (Some "Europe/Berlin"))
    None None.

(** An all-day event without an end; ical.js gives it the next day as
    [endDate]. *)
Definition newYear : ICAL.Event :=
  {| ICAL.uid := Some "d"; ICAL.summary := Some "New Year";
     ICAL.startDate := Some (date 2024 1 1); ICAL.endDate := Some (date 2024 1 2);
     ICAL.recurrenceId := None; ICAL.rrule := None; ICAL.hasRDate := false;
     ICAL.exdate := []; ICAL.hasDtend := false; ICAL.hasDuration := false |}.

Definition all_day_ics : string :=
"BEGIN:VCALENDAR
BEGIN:VEVENT
UID:d
SUMMARY:New Year
DTSTART;VALUE=DATE:20240101
END:VEVENT
END:VCALENDAR".

Definition series_ics : string :=
"BEGIN:VCALENDAR
BEGIN:VEVENT
UID:a
SUMMARY:A
DTSTART:20240101T010000Z
DTEND:20240101T020000Z
RRULE:FREQ=DAILY
END:VEVENT
BEGIN:VEVENT
UID:a
SUMMARY:A moved
RECURRENCE-ID:20240103T010000Z
DTSTART:20240103T030000Z
DTEND:20240103T040000Z
END:VEVENT
END:VCALENDAR".

Definition seriesEvents : list ICAL.Event :=
  [series "a" "A" 1; override "a" "A moved" 3 None].

Definition numeric_ics : string :=
"BEGIN:VCALENDAR
BEGIN:VEVENT
UID:2
SUMMARY:Two
DTSTART:20240101T010000Z
DTEND:20240101T020000Z
END:VEVENT
BEGIN:VEVENT
UID:1
SUMMARY:One
DTSTART:20240102T010000Z
DTEND:20240102T020000Z
END:VEVENT
END:VCALENDAR".

Definition recurring_override_ics : string :=
"BEGIN:VCALENDAR
BEGIN:VEVENT
UID:a
SUMMARY:A
DTSTART:20240101T010000Z
DTEND:20240101T020000Z
RRULE:FREQ=DAILY
END:VEVENT
BEGIN:VEVENT
UID:a
SUMMARY:A from now on
RECURRENCE-ID:20240103T010000Z
DTSTART:20240103T030000Z
DTEND:20240103T040000Z
RRULE:FREQ=DAILY
END:VEVENT
END:VCALENDAR".

Definition orphan_ics : string :=
"BEGIN:VCALENDAR
BEGIN:VEVENT
UID:a
SUMMARY:A
DTSTART:20240101T010000Z
DTEND:20240101T020000Z
RRULE:FREQ=DAILY
END:VEVENT
BEGIN:VEVENT
UID:zz
SUMMARY:Lost
RECURRENCE-ID:20240103T010000Z
DTSTART:20240103T030000Z
DTEND:20240103T040000Z
END:VEVENT
END:VCALENDAR".

Definition no_start_ics : string :=
"BEGIN:VCALENDAR
BEGIN:VEVENT
UID:x
SUMMARY:No start
END:VEVENT
BEGIN:VEVENT
UID:b
SUMMARY:B
DTSTART:20240102T010000Z
DTEND:20240102T020000Z
END:VEVENT
END:VCALENDAR".

Definition duplicates_ics : string :=
"BEGIN:VCALENDAR
BEGIN:VEVENT
UID:a
SUMMARY:A old
DTSTART:20240101T010000Z
DTEND:20240101T020000Z
RRULE:FREQ=DAILY
END:VEVENT
BEGIN:VEVENT
UID:b
SUMMARY:B
DTSTART:20240102T010000Z
DTEND:20240102T020000Z
END:VEVENT
BEGIN:VEVENT
UID:a
SUMMARY:A new
DTSTART:20240105T010000Z
DTEND:20240105T020000Z
RRULE:FREQ=DAILY
END:VEVENT
BEGIN:VEVENT
UID:a
SUMMARY:A moved
RECURRENCE-ID:20240107T010000Z
DTSTART:20240107T030000Z
DTEND:20240107T040000Z
END:VEVENT
END:VCALENDAR".

Definition duplicateEvents : list ICAL.Event :=
  [series "a" "A old" 1; single "b" "B" 2; series "a" "A new" 5;
   override "a" "A moved" 7 None].

(** The sample texts with the component tree of each. *)
Definition texts : list (string * ICAL.Component) :=
  [ (utc_weekly_ics, calendar [] [mondayEveningUTC]);
    (la_weekly_ics, calendar [LosAngeles] [mondayEveningLA]);
    (early_monday_ics, calendar [] [earlyMonday]);
    (floating_ics, calendar [] [floatingSeries]);
    (all_day_ics, calendar [] [newYear]);
    (series_ics, calendar [] seriesEvents);
    (numeric_ics, calendar [] [single "2" "Two" 1; single "1" "One" 2]);
    (recurring_override_ics,
       calendar [] [series "a" "A" 1; override "a" "A from now on" 3 (Some daily)]);
    (orphan_ics, calendar [] [series "a" "A" 1; override "zz" "Lost" 3 None]);
    (no_start_ics, calendar [] [noStart "x" "No start"; single "b" "B" 2]);
    (duplicates_ics, calendar [] duplicateEvents) ].

#[export] Instance collaborators : Collaborators := {|
  rrulestr s := Ok ("RRULE:" +:+ s);
  validateEvent e :=
    match e with
    | Single _ None _ _ _ | RRule _ None _ _ _ _ => None
    | _ => Some e
    end;
  ical_parse text := default (Throw ParserError) (Ok <$> JS.get texts text)
|}.

(** The zone table after [la_weekly_ics] was read. *)
Definition withLosAngeles : ICAL.Registry :=
  registerAll builtin (calendar [LosAngeles] []).

End Sample.

(** * Facts about the model *)

(** ** Plain objects *)

Section ObjectFacts.
Context {V : Type}.
Implicit Types (o es pre post : list (string * V)) (k : string) (v : V).

Lemma get_set_same o k v : JS.get (JS.set o k v) k = Some v.
Proof.
  induction o as [|[k' v'] o IH]; simpl.
  - by rewrite String.eqb_refl.
  - destruct (String.eqb_spec k' k) as [->|Hne]; simpl.
    + by rewrite String.eqb_refl.
    + by destruct (String.eqb_spec k' k).
Qed.

Lemma get_set_other o k k' v : k ≠ k' → JS.get (JS.set o k v) k' = JS.get o k'.
Proof.
  intros Hne. induction o as [|[k0 v0] o IH]; simpl.
  - by destruct (String.eqb_spec k k').
  - destruct (String.eqb_spec k0 k) as [->|Hk]; simpl.
    + by destruct (String.eqb_spec k k').
    + by rewrite IH.
Qed.

Lemma get_None o k : JS.get o k = None ↔ k ∉ o.*1.
Proof.
  induction o as [|[k' v'] o IH]; csimpl.
  - split; [intros _; apply not_elem_of_nil | done].
  - rewrite not_elem_of_cons. destruct (String.eqb_spec k' k) as [->|Hk].
    + split; [done | intros [? _]; congruence].
    + rewrite IH. intuition congruence.
Qed.

Lemma get_Some_elem o k v : JS.get o k = Some v → (k, v) ∈ o.
Proof.
  induction o as [|[k' v'] o IH]; simpl; [done|].
  destruct (String.eqb_spec k' k) as [->|Hk].
  - intros [= ->]. left.
  - intros. right. auto.
Qed.

Lemma set_fresh o k v : k ∉ o.*1 → JS.set o k v = (o ++ [(k, v)])%list.
Proof.
  induction o as [|[k' v'] o IH]; csimpl; [done|].
  rewrite not_elem_of_cons. intros [Hk Ho].
  destruct (String.eqb_spec k' k); [congruence|]. by rewrite IH.
Qed.

Lemma set_keys_present o k v : k ∈ o.*1 → (JS.set o k v).*1 = o.*1.
Proof.
  induction o as [|[k' v'] o IH]; csimpl.
  - by intros ?%elem_of_nil.
  - destruct (String.eqb_spec k' k) as [->|Hk]; csimpl; [done|].
    rewrite elem_of_cons. intros [?|?]; [congruence|]. by rewrite IH.
Qed.

Lemma set_NoDup o k v : NoDup o.*1 → NoDup (JS.set o k v).*1.
Proof.
  intros Ho. destruct (decide (k ∈ o.*1)) as [Hin|Hin].
  - by rewrite set_keys_present.
  - rewrite set_fresh, fmap_app by done. simpl.
    apply NoDup_app. split_and!; [done| |apply NoDup_singleton].
    intros x Hx ->%list_elem_of_singleton. done.
Qed.

Definition assign o (e : string * V) := JS.set o e.1 e.2.

Lemma fromEntries_foldl es : JS.fromEntries es = foldl assign [] es.
Proof. done. Qed.

Lemma foldl_assign_NoDup es o : NoDup o.*1 → NoDup (foldl assign o es).*1.
Proof.
  revert o. induction es as [|e es IH]; intros o Ho; simpl; [done|].
  apply IH. by apply set_NoDup.
Qed.

Lemma foldl_assign_get_other es o k :
  k ∉ es.*1 → JS.get (foldl assign o es) k = JS.get o k.
Proof.
  revert o. induction es as [|[k' v'] es IH]; intros o; csimpl; [done|].
  rewrite not_elem_of_cons. intros [Hk Hes].
  rewrite IH by done. unfold assign; simpl. by apply get_set_other.
Qed.

(** The last entry for a key is the one the object keeps. *)
Lemma fromEntries_last pre k v post :
  k ∉ post.*1 → JS.get (JS.fromEntries (pre ++ (k, v) :: post)) k = Some v.
Proof.
  intros Hk. rewrite fromEntries_foldl, foldl_app. simpl.
  rewrite foldl_assign_get_other by done. apply get_set_same.
Qed.

Lemma fromEntries_NoDup es : NoDup (JS.fromEntries es).*1.
Proof. rewrite fromEntries_foldl. apply foldl_assign_NoDup. constructor. Qed.

Lemma foldl_assign_distinct es o :
  NoDup (o.*1 ++ es.*1) → foldl assign o es = (o ++ es)%list.
Proof.
  revert o. induction es as [|[k v] es IH]; intros o; csimpl.
  - intros _. by rewrite app_nil_r.
  - intros Hnd. unfold assign at 2; simpl.
    rewrite set_fresh.
    + rewrite IH; [by rewrite <-app_assoc|].
      rewrite fmap_app; csimpl. by rewrite <-app_assoc.
    + apply NoDup_app in Hnd as (_ & Hd & _). intros Hin. apply (Hd _ Hin). left.
Qed.

(** Entries with distinct keys are kept as they are. *)
Lemma fromEntries_distinct es : NoDup es.*1 → JS.fromEntries es = es.
Proof. intros. rewrite fromEntries_foldl. by apply foldl_assign_distinct. Qed.

Lemma indexed_named o :
  Forall (λ e, JS.isArrayIndex e.1 = false) o → JS.indexed o = [].
Proof.
  induction 1 as [|[k v] o Hk _ IH]; simpl; [done|].
  unfold JS.isArrayIndex in Hk; simpl in Hk.
  destruct (JS.arrayIndex k); [done|]. exact IH.
Qed.

(** Without array-index keys, enumeration follows creation order. *)
Lemma values_named o :
  Forall (λ e, JS.isArrayIndex e.1 = false) o → JS.values o = o.*2.
Proof.
  intros Ho. unfold JS.values. rewrite indexed_named by done. simpl.
  unfold JS.named. induction Ho as [|[k v] o Hk _ IH]; csimpl; [done|].
  simpl in Hk. rewrite Hk. csimpl. by rewrite IH.
Qed.

End ObjectFacts.

(** ** The exception monad *)

Section ResultFacts.
Context {A B : Type}.
Implicit Types (f : A → result B) (l : list A) (k : list B).

Lemma result_ret_Ok (a : A) : mret a = Ok a.
Proof. done. Qed.

Lemma mapM_Ok_Forall2 f l k :
  mapM f l = Ok k ↔ Forall2 (λ x y, f x = Ok y) l k.
Proof.
  revert k. induction l as [|x l IH]; intros k; simpl.
  - split; [intros [= <-]; constructor | by inversion 1].
  - destruct (f x) as [y|e] eqn:Hx; simpl.
    + destruct (mapM f l) as [k'|e] eqn:Hl; simpl.
      * unfold mret, result_ret. split.
        -- intros [= <-]. constructor; [done|]. by apply IH.
        -- inversion 1 as [|? y' ? k'' Hy Hk]; subst.
           apply IH in Hk. congruence.
      * split; [done|]. inversion 1 as [|? y' ? k'' Hy Hk]; subst.
        apply IH in Hk. congruence.
    + split; [done|]. inversion 1; congruence.
Qed.


End ResultFacts.

(** ** The loop over the recurrence exceptions *)

Section MergeFacts.
Implicit Types (o : list (string * OFCEvent)) (b e : OFCEvent).
Implicit Types (x : option string * OFCEvent) (xs : list (option string * OFCEvent)).

(** The exceptions filed under the property key [k], in loop order. *)
Definition exceptionsOf (k : string) xs : list OFCEvent :=
  (List.filter (λ x, String.eqb (JS.toPropertyKey x.1) k) xs).*2.

(** A base event after every exception filed under [k] went through the
    loop body. *)
Definition mergedWith (k : string) b xs : OFCEvent :=
  foldl mergeInto b (exceptionsOf k xs).

Lemma mergeInto_guard b e :
  isRRule b && negb (isRRule e) = false → mergeInto b e = b.
Proof. by destruct b, e. Qed.

Lemma mergeInto_isRRule b e : isRRule (mergeInto b e) = isRRule b.
Proof. by destruct b, e. Qed.

Lemma mergeInto_id b e : ofc_id (mergeInto b e) = ofc_id b.
Proof. by destruct b, e. Qed.

Lemma set_get_same {V} (o : list (string * V)) k v :
  JS.get o k = Some v → JS.set o k v = o.
Proof.
  induction o as [|[k' v'] o IH]; simpl; [done|].
  destruct (String.eqb_spec k' k) as [->|Hk].
  - by intros [= ->].
  - intros ?. by rewrite IH.
Qed.

Definition mergeEntry x (kv : string * OFCEvent) : string * OFCEvent :=
  (kv.1, if String.eqb (JS.toPropertyKey x.1) kv.1 then mergeInto kv.2 x.2 else kv.2).

Lemma mergeEntry_absent x o :
  JS.toPropertyKey x.1 ∉ o.*1 → mergeEntry x <$> o = o.
Proof.
  induction o as [|[k v] o IH]; csimpl; [done|].
  rewrite not_elem_of_cons. intros [Hk Ho]. rewrite IH by done.
  unfold mergeEntry; simpl.
  by destruct (String.eqb_spec (JS.toPropertyKey x.1) k).
Qed.

(** One round of the loop rewrites the entry filed under the exception's
    key and no other. *)
Lemma mergeException_fmap o x :
  NoDup o.*1 → mergeException o x = mergeEntry x <$> o.
Proof.
  unfold mergeException.
  induction o as [|[k v] o IH]; csimpl; [done|].
  intros [Hk Ho]%NoDup_cons.
  unfold mergeEntry at 1; simpl.
  destruct (String.eqb_spec k (JS.toPropertyKey x.1)) as [->|Hne].
  - rewrite String.eqb_refl, mergeEntry_absent by done.
    destruct (isRRule v && negb (isRRule x.2)) eqn:Hg; [done|].
    by rewrite mergeInto_guard.
  - destruct (String.eqb_spec (JS.toPropertyKey x.1) k) as [?|_]; [congruence|].
    specialize (IH Ho).
    destruct (JS.get o (JS.toPropertyKey x.1)) as [b|]; [|by rewrite <-IH].
    destruct (isRRule b && negb (isRRule x.2)); by rewrite <-IH.
Qed.

Lemma mergeEntry_keys x o : (mergeEntry x <$> o).*1 = o.*1.
Proof. rewrite <-list_fmap_compose. by apply list_fmap_ext. Qed.

Definition mergedEntry xs (kv : string * OFCEvent) : string * OFCEvent :=
  (kv.1, mergedWith kv.1 kv.2 xs).

(** The whole loop: every base event receives the exceptions filed under
    its own key, in loop order; keys and their order stay. *)
Lemma merge_loop xs o :
  NoDup o.*1 → foldl mergeException o xs = mergedEntry xs <$> o.
Proof.
  revert o. induction xs as [|x xs IH]; intros o Ho; simpl.
  - unfold mergedEntry, mergedWith; simpl.
    induction o as [|[k v] o IHo]; csimpl; [done|].
    apply NoDup_cons in Ho as [_ Ho]. by rewrite <-IHo.
  - rewrite mergeException_fmap by done.
    rewrite IH by (by rewrite mergeEntry_keys).
    rewrite <-list_fmap_compose. apply list_fmap_ext. intros _ [k v] _. simpl.
    unfold mergedEntry, mergedWith, exceptionsOf, mergeEntry; simpl.
    by destruct (String.eqb (JS.toPropertyKey x.1) k).
Qed.

Lemma merge_loop_keys xs o : NoDup o.*1 → (foldl mergeException o xs).*1 = o.*1.
Proof.
  intros. rewrite merge_loop by done.
  rewrite <-list_fmap_compose. by apply list_fmap_ext.
Qed.

Lemma get_fmap_entry {V W} (g : string → V → W) (o : list (string * V)) k :
  JS.get ((λ kv, (kv.1, g kv.1 kv.2)) <$> o) k = g k <$> JS.get o k.
Proof.
  induction o as [|[k' v'] o IH]; csimpl; [done|].
  by destruct (String.eqb_spec k' k) as [->|Hk].
Qed.

Lemma merge_loop_get xs o k :
  NoDup o.*1 →
  JS.get (foldl mergeException o xs) k = (λ b, mergedWith k b xs) <$> JS.get o k.
Proof.
  intros. rewrite merge_loop by done.
  apply (get_fmap_entry (λ k b, mergedWith k b xs)).
Qed.

Lemma mergedWith_isRRule k b xs : isRRule (mergedWith k b xs) = isRRule b.
Proof.
  unfold mergedWith. generalize (exceptionsOf k xs) as es.
  intros es. revert b. induction es as [|e es IH]; intros b; simpl; [done|].
  by rewrite IH, mergeInto_isRRule.
Qed.

Lemma foldl_mergeInto_skipDates b es :
  ofc_skipDates b ⊆ ofc_skipDates (foldl mergeInto b es).
Proof.
  revert b. induction es as [|e es IH]; intros b; simpl; [done|].
  etrans; [|apply IH]. destruct b, e; simpl; try done.
  intros d Hd. apply elem_of_app. by left.
Qed.

(** A single-occurrence exception leaves its date in the exclusion list of
    a recurring base event, whatever else is merged before and after. *)
Lemma foldl_mergeInto_date b es id title date endDate timing :
  isRRule b = true → Single id title date endDate timing ∈ es →
  date ∈ ofc_skipDates (foldl mergeInto b es).
Proof.
  revert b. induction es as [|e es IH]; intros b Hb; [by intros ?%elem_of_nil|].
  rewrite elem_of_cons. intros [<-|Hin]; simpl.
  - apply foldl_mergeInto_skipDates. destruct b; [done|]. simpl.
    apply elem_of_app. right. left.
  - apply IH; [|done]. by rewrite mergeInto_isRRule.
Qed.

End MergeFacts.

(** ** Weekdays and the rotation of BYDAY tokens *)

Section WeekdayFacts.

Lemma WeekDay_range t : (0 ≤ JSDate.WeekDay t < 7)%Z.
Proof. unfold JSDate.WeekDay. apply Z.mod_pos_bound. lia. Qed.

Lemma indexOf_WEEK_DAYS p :
  ((p ∉ WEEK_DAYS) ∧ JS.indexOf WEEK_DAYS p = (-1)%Z) ∨
  ((0 ≤ JS.indexOf WEEK_DAYS p < 7)%Z ∧
   WEEK_DAYS !! Z.to_nat (JS.indexOf WEEK_DAYS p) = Some p).
Proof.
  unfold JS.indexOf, WEEK_DAYS; cbn [JS.indexOf_from].
  repeat (match goal with
          | |- context [String.eqb ?a p] =>
              destruct (String.eqb_spec a p) as [<-|?];
              [right; split; [lia | reflexivity] |]
          end).
  left. split; [|done].
  rewrite !not_elem_of_cons. split_and!; try congruence. apply not_elem_of_nil.
Qed.

Lemma week_day_at i :
  (0 ≤ i < 7)%Z → ∃ w, WEEK_DAYS !! Z.to_nat i = Some w ∧ w ∈ WEEK_DAYS.
Proof.
  intros Hi. destruct (WEEK_DAYS !! Z.to_nat i) as [w|] eqn:Hw.
  - exists w. split; [done|]. by eapply list_elem_of_lookup_2.
  - apply lookup_ge_None in Hw. simpl in Hw. lia.
Qed.

(** On the sums that occur, [%] is [mod], and the [+ 7] drops out. *)
Lemma shift_index i day_diff :
  (-1 ≤ i < 7)%Z → (-6 ≤ day_diff ≤ 6)%Z →
  JS.rem (i + day_diff + 7) 7 = ((i + day_diff mod 7) mod 7)%Z.
Proof.
  intros Hi Hd. unfold JS.rem. rewrite Z.rem_mod_nonneg by lia.
  rewrite Zplus_mod_idemp_r.
  replace (i + day_diff + 7)%Z with (i + day_diff + 1 * 7)%Z by lia.
  by rewrite Z_mod_plus_full.
Qed.

Lemma index_nth (a : list string) i :
  (0 ≤ i)%Z → JS.index a i = a !! Z.to_nat i.
Proof. intros. unfold JS.index. by destruct (Z.ltb_spec i 0); [lia|]. Qed.

(** The callback of the source computes the rotation the specification
    describes, with the shift taken modulo 7. *)
Lemma shiftDay_rotateToken day_diff p :
  (-6 ≤ day_diff ≤ 6)%Z →
  shiftDay day_diff p = Claimed.rotateToken (day_diff mod 7) p.
Proof.
  intros Hd. unfold shiftDay, Claimed.rotateToken.
  assert (-1 ≤ JS.indexOf WEEK_DAYS p < 7)%Z as Hi
    by (destruct (indexOf_WEEK_DAYS p) as [[_ ->]|[? _]]; lia).
  rewrite shift_index by done.
  set (m := ((JS.indexOf WEEK_DAYS p + day_diff mod 7) mod 7)%Z).
  assert (0 ≤ m < 7)%Z as Hm by (apply Z.mod_pos_bound; lia).
  rewrite index_nth by lia.
  destruct (week_day_at m Hm) as (w & Hw & _). rewrite Hw.
  symmetry. exact (nth_lookup_Some _ _ "" _ Hw).
Qed.

Lemma rotateToken_elem dayShift p : Claimed.rotateToken dayShift p ∈ WEEK_DAYS.
Proof.
  unfold Claimed.rotateToken.
  set (m := ((JS.indexOf WEEK_DAYS p + dayShift) mod 7)%Z).
  assert (0 ≤ m < 7)%Z as Hm by (apply Z.mod_pos_bound; lia).
  destruct (week_day_at m Hm) as (w & Hw & Hin).
  by rewrite (nth_lookup_Some _ _ "" _ Hw).
Qed.

Lemma shiftByDay_rotateRule day_diff fv :
  (-6 ≤ day_diff ≤ 6)%Z → day_diff ≠ 0%Z →
  shiftByDay day_diff fv = Claimed.rotateRule (day_diff mod 7) fv.
Proof.
  intros Hd Hnz. unfold shiftByDay, Claimed.rotateRule.
  destruct (JS.get (ICAL.parts fv) "BYDAY") as [tokens|]; [|done].
  rewrite bool_decide_eq_false_2.
  - f_equal. apply list_fmap_ext. intros _ p _. by apply shiftDay_rotateToken.
  - intros Hm. apply Z.mod_divide in Hm; [|lia].
    destruct Hm as [c Hc]. lia.
Qed.

Lemma rotateRule_zero fv : Claimed.rotateRule 0 fv = fv.
Proof. unfold Claimed.rotateRule. by destruct (JS.get _ _). Qed.

End WeekdayFacts.

(** ** Enumeration, and the entry an object keeps for a key *)

Section EnumerationFacts.
Context {V : Type}.
Implicit Types (o es pre post : list (string * V)) (k : string) (v : V).

Lemma insertByIndex_Permutation n v (l : list (N * V)) :
  JS.insertByIndex n v l ≡ₚ (n, v) :: l.
Proof.
  induction l as [|[m w] l IH]; simpl; [done|].
  destruct (n <? m)%N; [done|].
  rewrite IH. apply Permutation_swap.
Qed.

(** [Object.values] lists the value of every property once. *)
Lemma values_Permutation o : JS.values o ≡ₚ o.*2.
Proof.
  unfold JS.values, JS.named.
  induction o as [|[k v] o IH]; csimpl; [done|].
  unfold JS.isArrayIndex; simpl.
  destruct (JS.arrayIndex k) as [n|]; csimpl.
  - rewrite insertByIndex_Permutation. csimpl. by rewrite IH.
  - rewrite <-Permutation_middle. by rewrite IH.
Qed.

Lemma elem_of_values o v : v ∈ JS.values o ↔ v ∈ o.*2.
Proof. by rewrite values_Permutation. Qed.

Lemma get_elem_of_values o k v : JS.get o k = Some v → v ∈ JS.values o.
Proof.
  intros Hg%get_Some_elem. apply elem_of_values.
  apply list_elem_of_fmap. by exists (k, v).
Qed.

Lemma fromEntries_snoc es e :
  JS.fromEntries (es ++ [e]) = JS.set (JS.fromEntries es) e.1 e.2.
Proof. unfold JS.fromEntries. by rewrite foldl_app. Qed.

(** The value an object built by [Object.fromEntries] holds for a key is
    that of the last entry with the key. *)
Lemma fromEntries_get_inv es k v :
  JS.get (JS.fromEntries es) k = Some v →
  ∃ pre post, es = (pre ++ (k, v) :: post)%list ∧ k ∉ post.*1.
Proof.
  induction es as [|[k' v'] es IH] using rev_ind; [done|].
  rewrite fromEntries_snoc; simpl.
  destruct (decide (k' = k)) as [->|Hne].
  - rewrite get_set_same. intros [= ->].
    exists es, []. split; [done|]. apply not_elem_of_nil.
  - rewrite get_set_other by done. intros (pre & post & -> & Hk)%IH.
    exists pre, (post ++ [(k', v')])%list. split; [by rewrite <-app_assoc|].
    rewrite fmap_app. csimpl. rewrite elem_of_app, list_elem_of_singleton.
    intros [?|?]; [done|congruence].
Qed.

Lemma fromEntries_keys es k : k ∈ (JS.fromEntries es).*1 → k ∈ es.*1.
Proof.
  intros Hk. destruct (JS.get (JS.fromEntries es) k) as [v|] eqn:Hg.
  - apply fromEntries_get_inv in Hg as (pre & post & -> & _).
    rewrite fmap_app. csimpl. rewrite elem_of_app, elem_of_cons. auto.
  - by apply get_None in Hg.
Qed.

End EnumerationFacts.

Section FilterFacts.
Context {A : Type}.
Implicit Types (f : A → bool) (l : list A).



End FilterFacts.

(** ** The zone table *)

Section RegistryFacts.
Implicit Types (R : ICAL.Registry) (zs : list ICAL.Timezone).

Lemma register_all_union R zs :
  foldl ICAL.register R zs = foldl ICAL.register ∅ zs ∪ R.
Proof.
  revert R. induction zs as [|z zs IH]; intros R; simpl.
  - by rewrite (left_id_L ∅ (∪)).
  - rewrite IH, (IH (ICAL.register ∅ z)). unfold ICAL.register.
    rewrite <-(assoc_L (∪)). f_equal.
    by rewrite <-insert_union_l, (left_id_L ∅ (∪)).
Qed.

(** Registering the zones of a calendar a second time changes nothing. *)
Lemma registerAll_idemp R component :
  registerAll (registerAll R component) component = registerAll R component.
Proof.
  unfold registerAll.
  rewrite (register_all_union (foldl _ _ _)), (register_all_union R).
  by rewrite (assoc_L (∪)), (idemp_L (∪)).
Qed.

End RegistryFacts.

(** * The claims *)

Section AdjusterClaims.
Context `{Luxon} `{JSDate.Runtime} `{Collaborators}.

Lemma dayDiff_range start d : dayDiff start = Ok d → (-6 ≤ d ≤ 6)%Z.
Proof.
  unfold dayDiff. destruct (ICAL.toJSDate start) as [js|]; [|done].
  intros [= <-]. unfold JSDate.getUTCDay, JSDate.getDay.
  pose proof (WeekDay_range js). pose proof (WeekDay_range (JSDate.LocalTime js)).
  lia.
Qed.

Lemma adjustedRule_eq R input sd js fv :
  ICAL.startDate input = Some sd →
  ICAL.toJSDate (ICAL.fromData R sd) = Ok js →
  ICAL.rrule input = Some fv →
  adjustedRule R input =
    Ok (Some (Claimed.rotateRule ((JSDate.getUTCDay js - JSDate.getDay js) mod 7) fv)).
Proof.
  intros Hsd Hjs Hfv. unfold adjustedRule. rewrite Hsd, Hfv. simpl.
  assert (dayDiff (ICAL.fromData R sd) = Ok (JSDate.getUTCDay js - JSDate.getDay js)%Z)
    as Hd by (unfold dayDiff; by rewrite Hjs).
  rewrite Hd. simpl. apply dayDiff_range in Hd.
  destruct (Z.eqb_spec (JSDate.getUTCDay js - JSDate.getDay js) 0) as [->|Hnz].
  - by rewrite Zmod_0_l, rotateRule_zero.
  - simpl. by rewrite shiftByDay_rotateRule.
Qed.

(** C1, as amended.  For a recurring component, let [dayShift] be the
    weekday (0 = Sunday) of the start's [Date] in UTC ([getUTCDay]) minus
    its weekday in the local time of the host ([getDay]), modulo 7.  The rule the
    event is built from is the RRULE value with every BYDAY token moved to
    the element of [WEEK_DAYS] at (token index + dayShift) mod 7 when
    [dayShift] is not zero, and the RRULE value unchanged when [dayShift]
    is zero or the rule has no BYDAY part. *)
Theorem C1_byday_rotation R input sd js fv :
  ICAL.startDate input = Some sd →
  ICAL.toJSDate (ICAL.fromData R sd) = Ok js →
  ICAL.rrule input = Some fv →
  let dayShift := ((JSDate.getUTCDay js - JSDate.getDay js) mod 7)%Z in
  adjustedRule R input = Ok (Some (Claimed.rotateRule dayShift fv)) ∧
  ∀ o, icsToOFC R input = Ok o →
       ∃ id title rule skipDates startDate timing,
         o = RRule id title rule skipDates startDate timing ∧
         rrulestr (ICAL.Recur_toString (Claimed.rotateRule dayShift fv)) = Ok rule.
Proof.
  intros Hsd Hjs Hfv dayShift.
  pose proof (adjustedRule_eq R input sd js fv Hsd Hjs Hfv) as Hadj.
  split; [exact Hadj|].
  intros o. unfold icsToOFC, ICAL.isRecurring. rewrite Hfv, Hsd. simpl.
  rewrite Hadj. simpl.
  destruct (rrulestr _) as [rule|]; [|done]. simpl.
  destruct (getDate _) as [idDate|]; [|done]. simpl.
  destruct (timeInfo _ _ _) as [timing|]; [|done]. simpl.
  intros [= <-]. by repeat eexists.
Qed.

(** C10.  When the day shift is not zero, every token of the rewritten
    BYDAY list is an element of [WEEK_DAYS]; a token that is none of the
    seven codes has index [-1] and becomes the element at
    (dayShift + 6) mod 7. *)
Theorem C10_rewritten_tokens R input sd js fv tokens :
  ICAL.startDate input = Some sd →
  ICAL.toJSDate (ICAL.fromData R sd) = Ok js →
  ICAL.rrule input = Some fv →
  JS.get (ICAL.parts fv) "BYDAY" = Some tokens →
  let dayShift := ((JSDate.getUTCDay js - JSDate.getDay js) mod 7)%Z in
  dayShift ≠ 0%Z →
  ∃ fv' tokens',
    adjustedRule R input = Ok (Some fv') ∧
    JS.get (ICAL.parts fv') "BYDAY" = Some tokens' ∧
    Forall (λ q, q ∈ WEEK_DAYS) tokens' ∧
    Forall2 (λ p q, p ∉ WEEK_DAYS →
                    JS.indexOf WEEK_DAYS p = (-1)%Z ∧
                    WEEK_DAYS !! Z.to_nat ((dayShift + 6) mod 7) = Some q)
            tokens tokens'.
Proof.
  intros Hsd Hjs Hfv Htok dayShift Hnz.
  exists (Claimed.rotateRule dayShift fv), (Claimed.rotateToken dayShift <$> tokens).
  split; [exact (adjustedRule_eq R input sd js fv Hsd Hjs Hfv)|].
  unfold Claimed.rotateRule. rewrite Htok, bool_decide_eq_false_2 by done.
  split; [apply get_set_same|]. split.
  - apply Forall_fmap, Forall_forall. intros p _. apply rotateToken_elem.
  - apply Forall2_fmap_r, Forall_Forall2_diag, Forall_forall.
    intros p _ Hp.
    destruct (indexOf_WEEK_DAYS p) as [[_ Hi]|[_ Hin]].
    + split; [done|]. unfold Claimed.rotateToken. rewrite Hi.
      replace (-1 + dayShift)%Z with (dayShift + 6 + (-1) * 7)%Z by lia.
      rewrite Z_mod_plus_full.
      assert (0 ≤ (dayShift + 6) mod 7 < 7)%Z as Hm by (apply Z.mod_pos_bound; lia).
      destruct (week_day_at _ Hm) as (w & Hw & _).
      by rewrite (nth_lookup_Some _ _ "" _ Hw).
    + destruct Hp. by eapply list_elem_of_lookup_2.
Qed.

End AdjusterClaims.

Section NormalizerClaims.
Context `{Luxon} `{!LuxonLaws}.


End NormalizerClaims.

Section BuilderClaims.
Context `{Luxon} `{JSDate.Runtime} `{Collaborators}.

Lemma timeInfo_Ok R input start timing :
  timeInfo R input start = Ok timing →
  if ICAL.isDate (ICAL.data start) then timing = AllDay
  else ∃ ed, ICAL.endDate input = Some ed ∧
             timing = Timed (getTimeL (ICAL.toString start) (ICAL.timezone (ICAL.data start)))
                            (getTimeL (ICAL.toString (ICAL.fromData R ed))
                                      (ICAL.timezone (ICAL.data start))).
Proof.
  unfold timeInfo. destruct (ICAL.isDate _); [by intros [= <-]|].
  destruct (ICAL.endDate input) as [ed|]; [|done]. simpl.
  intros [= <-]. by exists ed.
Qed.

(** What a successful conversion went through. *)
Lemma icsToOFC_Ok R input o :
  icsToOFC R input = Ok o →
  ∃ sd timing,
    ICAL.startDate input = Some sd ∧
    timeInfo R input (ICAL.fromData R sd) = Ok timing ∧
    let start := ICAL.fromData R sd in
    let startDate := getDateL (ICAL.toString start) (ICAL.timezone sd) in
    if ICAL.isRecurring input then
      ∃ fv rule idDate,
        adjustedRule R input = Ok (Some fv) ∧
        rrulestr (ICAL.Recur_toString fv) = Ok rule ∧
        getDate start = Ok idDate ∧
        o = RRule ("ics::" +:+ JS.templateStr (ICAL.uid input) +:+ "::"
                           +:+ JS.templateStr idDate +:+ "::recurring")
                  (ICAL.summary input) rule
                  ((λ d, getDateL (ICAL.toString (ICAL.fromData R d)) (ICAL.timezone d))
                     <$> ICAL.exdate input)
                  startDate timing
    else
      ∃ endDate,
        o = Single ("ics::" +:+ JS.templateStr (ICAL.uid input) +:+ "::"
                            +:+ JS.templateStr startDate +:+ "::single")
                   (ICAL.summary input) startDate endDate timing.
Proof.
  unfold icsToOFC.
  destruct (ICAL.startDate input) as [sd|] eqn:Hsd;
    [|by destruct (ICAL.isRecurring input)].
  destruct (ICAL.isRecurring input); simpl.
  - destruct (adjustedRule R input) as [[fv|]|]; [|done..]. simpl.
    destruct (rrulestr _) as [rule|] eqn:Hrule; [|done]. simpl.
    destruct (getDate _) as [idDate|] eqn:Hid; [|done]. simpl.
    destruct (timeInfo _ _ _) as [timing|] eqn:Htm; [|done]. simpl.
    intros [= <-]. exists sd, timing. split_and!; [done..|].
    by exists fv, rule, idDate.
  - destruct (timeInfo _ _ _) as [timing|] eqn:Htm; [|done]. simpl.
    intros [= <-]. exists sd, timing. split_and!; [done..|]. by eexists.
Qed.


(** An all-day component, recurring or single, yields an event without
    start and end time. *)
Theorem allDay_has_no_times R input sd o :
  ICAL.startDate input = Some sd →
  ICAL.isDate sd = true →
  icsToOFC R input = Ok o →
  ofc_timing o = AllDay.
Proof.
  intros Hsd Hdate Ho.
  apply icsToOFC_Ok in Ho as (sd' & timing & Hsd' & Htm & Ho).
  assert (sd' = sd) as -> by congruence.
  apply timeInfo_Ok in Htm. simpl in Htm. rewrite Hdate in Htm. subst timing.
  simpl in Ho. destruct (ICAL.isRecurring input).
  - by destruct Ho as (? & ? & ? & _ & _ & _ & ->).
  - by destruct Ho as (? & ->).
Qed.

(** A component that is not recurring yields a single event whose end date
    is left out unless the component specifies an end and the end falls
    on another date than the start. *)
Theorem single_endDate_when_distinct R input o :
  ICAL.isRecurring input = false →
  icsToOFC R input = Ok o →
  ∃ id title date endDate timing,
    o = Single id title date endDate timing ∧
    (endDate = None ∨ (endDate ≠ date ∧ specifiesEnd input = true)).
Proof.
  intros Hrec. unfold icsToOFC. rewrite Hrec.
  destruct (ICAL.startDate input) as [sd|]; [|done]. simpl.
  destruct (timeInfo _ _ _) as [timing|]; [|done]. simpl.
  intros [= <-]. do 5 eexists. split; [done|].
  case_bool_decide as Heq; [by left|].
  destruct (specifiesEnd input); [|by left].
  right. split; [|done]. intros Heq'. by apply Heq.
Qed.

(** A second run of [getEventsFromICS] on the same text starts from the
    zone table the first run left and ends as the first did. *)
Lemma getEventsFromICS_again text R :
  getEventsFromICS text (getEventsFromICS text R).2 = getEventsFromICS text R.
Proof.
  unfold getEventsFromICS.
  destruct (ical_parse text) as [component|e] eqn:Hp; simpl; [|done].
  by rewrite registerAll_idemp.
Qed.

(** C8.  Converting the same text twice yields the same outcome, events,
    fields and order, the second run starting from the zone table the
    first one filled; the zone table itself is the same after both. *)
Theorem C8_conversion_idempotent (text : string) (R : ICAL.Registry) :
  let first := getEventsFromICS text R in
  let second := getEventsFromICS text first.2 in
  second.1 = first.1 ∧ second.2 = first.2.
Proof. intros first second. unfold second, first. by rewrite getEventsFromICS_again. Qed.

Lemma resolves_true R evt :
  resolves R evt = true ↔
  ∃ sd ed js je,
    ICAL.startDate evt = Some sd ∧ ICAL.toJSDate (ICAL.fromData R sd) = Ok js ∧
    ICAL.endDate evt = Some ed ∧ ICAL.toJSDate (ICAL.fromData R ed) = Ok je.
Proof.
  unfold resolves. split.
  - destruct (ICAL.startDate evt) as [sd|]; [|done]. simpl.
    destruct (ICAL.toJSDate (ICAL.fromData R sd)) as [js|] eqn:Hjs; [|done]. simpl.
    destruct (ICAL.endDate evt) as [ed|]; [|done]. simpl.
    destruct (ICAL.toJSDate (ICAL.fromData R ed)) as [je|] eqn:Hje; [|done].
    intros _. by exists sd, ed, js, je.
  - intros (sd & ed & js & je & -> & Hjs & -> & Hje). simpl.
    rewrite Hjs. simpl. by rewrite Hje.
Qed.

Lemma elem_of_filter_bool {A} (f : A → bool) (l : list A) x :
  x ∈ List.filter f l ↔ x ∈ l ∧ f x = true.
Proof. rewrite !list_elem_of_In. apply filter_In. Qed.




End BuilderClaims.

(** ** Base events and recurrence exceptions *)

(** The property key an event is filed under. *)
Definition keyOf (e : ICAL.Event) : string := JS.toPropertyKey (ICAL.uid e).

Definition isBase (e : ICAL.Event) : bool := negb (isException e).

(** [b] is a base event of [events], and no base event after it has its
    key. *)
Definition lastBase (events : list ICAL.Event) (b : ICAL.Event) : Prop :=
  ∃ pre post, events = (pre ++ b :: post)%list ∧ isBase b = true ∧
              Forall (λ e, isBase e = true → keyOf e ≠ keyOf b) post.

Section ReconcilerFacts.
Context `{Luxon} `{JSDate.Runtime} `{Collaborators}.
Implicit Types (R : ICAL.Registry) (events : list ICAL.Event).
Implicit Types (M : list (string * OFCEvent)) (exc base : list (option string * OFCEvent)).

(** [xs] are the entries of [events], in order. *)
Definition entriesOf R events (xs : list (option string * OFCEvent)) : Prop :=
  Forall2 (λ e x, x.1 = ICAL.uid e ∧ icsToOFC R e = Ok x.2) events xs.

Lemma toEntry_Ok R e x :
  toEntry R e = Ok x ↔ x.1 = ICAL.uid e ∧ icsToOFC R e = Ok x.2.
Proof.
  unfold toEntry. destruct (icsToOFC R e) as [o|]; simpl.
  - destruct x as [u o']. simpl. split; [by intros [= <- <-]|by intros [-> [= ->]]].
  - split; [done|by intros [_ ?]].
Qed.

Lemma mapM_toEntry R events xs :
  mapM (toEntry R) events = Ok xs ↔ entriesOf R events xs.
Proof.
  rewrite mapM_Ok_Forall2. unfold entriesOf.
  split; intros Hall; (eapply Forall2_impl; [exact Hall|]);
    intros e x; by rewrite toEntry_Ok.
Qed.

Lemma reconcile_Ok R events M exc :
  reconcile R events = Ok (M, exc) ↔
  ∃ base, entriesOf R (List.filter isBase events) base ∧
          entriesOf R (List.filter isException events) exc ∧
          M = foldl mergeException (JS.fromEntries (entryKey <$> base)) exc.
Proof.
  unfold reconcile. fold isBase. split.
  - destruct (mapM (toEntry R) (List.filter isBase events)) as [base|] eqn:Hb; [|done].
    simpl. destruct (mapM (toEntry R) (List.filter isException events)) as [exc'|] eqn:He;
      [|done].
    simpl. intros [= <- <-]. exists base. by rewrite <-!mapM_toEntry.
  - intros (base & Hb%mapM_toEntry & He%mapM_toEntry & ->).
    rewrite Hb. simpl. by rewrite He.
Qed.

(** After the loop, the object is the one built from the base events with
    each value merged with the exceptions of its key. *)
Lemma reconciled_object base exc :
  foldl mergeException (JS.fromEntries (entryKey <$> base)) exc =
  mergedEntry exc <$> JS.fromEntries (entryKey <$> base).
Proof. apply merge_loop, fromEntries_NoDup. Qed.

Lemma entriesOf_keys R events xs :
  entriesOf R events xs → (entryKey <$> xs).*1 = keyOf <$> events.
Proof.
  induction 1 as [|e x events xs [Hx _] _ IH]; csimpl; [done|].
  unfold keyOf. by rewrite Hx, IH.
Qed.

Lemma entriesOf_app_inv R l1 e l2 xs :
  entriesOf R (l1 ++ e :: l2) xs →
  ∃ x1 o x2, xs = (x1 ++ (ICAL.uid e, o) :: x2)%list ∧ icsToOFC R e = Ok o ∧
             entriesOf R l1 x1 ∧ entriesOf R l2 x2.
Proof.
  intros (x1 & x' & Hx1 & Hx' & ->)%Forall2_app_inv_l.
  apply Forall2_cons_inv_l in Hx' as ([u o] & x2 & [Hu Ho] & Hx2 & ->).
  simpl in *. subst u. by exists x1, o, x2.
Qed.

Lemma lastBase_filter events b :
  lastBase events b →
  ∃ l1 l2, List.filter isBase events = (l1 ++ b :: l2)%list ∧
           Forall (λ e, keyOf e ≠ keyOf b) l2.
Proof.
  intros (pre & post & -> & Hb & Hpost).
  exists (List.filter isBase pre), (List.filter isBase post). split.
  - rewrite List.filter_app. simpl. by rewrite Hb.
  - apply Forall_forall. intros e [He Hbase]%elem_of_filter_bool.
    eapply Forall_forall in Hpost; [|done]. auto.
Qed.

(** The object built from the base events holds, for the key of a last
    base event, the conversion of that event. *)
Lemma baseEvents_last R events base b :
  entriesOf R (List.filter isBase events) base → lastBase events b →
  ∃ ob, icsToOFC R b = Ok ob ∧
        JS.get (JS.fromEntries (entryKey <$> base)) (keyOf b) = Some ob.
Proof.
  intros Hbase (l1 & l2 & Hf & Hl2)%lastBase_filter. rewrite Hf in Hbase.
  apply entriesOf_app_inv in Hbase as (x1 & ob & x2 & -> & Hob & _ & Hx2).
  exists ob. split; [done|]. rewrite fmap_app. csimpl.
  apply (fromEntries_last (entryKey <$> x1) (keyOf b) ob (entryKey <$> x2)).
  rewrite (entriesOf_keys _ _ _ Hx2). intros (e & Hk & He)%list_elem_of_fmap.
  eapply Forall_forall in Hl2; [|done]. congruence.
Qed.


End ReconcilerFacts.


Section ReconcilerClaims.
Context `{Luxon} `{JSDate.Runtime} `{Collaborators}.
Implicit Types (R : ICAL.Registry) (events : list ICAL.Event).
Implicit Types (M : list (string * OFCEvent)) (exc base : list (option string * OFCEvent)).

Lemma mergedWith_id k b exc : ofc_id (mergedWith k b exc) = ofc_id b.
Proof.
  unfold mergedWith. generalize (exceptionsOf k exc) as es.
  intros es. revert b. induction es as [|e es IH]; intros b; simpl; [done|].
  by rewrite IH, mergeInto_id.
Qed.

Lemma entriesOf_elem R events xs e :
  entriesOf R events xs → e ∈ events →
  ∃ o, icsToOFC R e = Ok o ∧ (ICAL.uid e, o) ∈ xs.
Proof.
  intros Hxs (l1 & l2 & ->)%list_elem_of_split.
  apply entriesOf_app_inv in Hxs as (x1 & o & x2 & -> & Ho & _ & _).
  exists o. split; [done|]. apply elem_of_app. right. left.
Qed.

Lemma elem_of_exceptionsOf e o exc :
  (ICAL.uid e, o) ∈ exc → o ∈ exceptionsOf (keyOf e) exc.
Proof.
  intros Hin. unfold exceptionsOf. apply list_elem_of_fmap.
  exists (ICAL.uid e, o). split; [done|]. apply elem_of_filter_bool.
  split; [done|]. apply String.eqb_refl.
Qed.

(** The date of a single-occurrence exception ends up in the exclusion
    list of the recurring event kept for its key, and the exception stays
    among the recurrence exceptions. *)
Lemma override_date_merged R events M exc b e ob id title date endDate timing :
  reconcile R events = Ok (M, exc) →
  lastBase events b → e ∈ events → isException e = true → keyOf e = keyOf b →
  icsToOFC R b = Ok ob → isRRule ob = true →
  icsToOFC R e = Ok (Single id title date endDate timing) →
  JS.get M (keyOf b) = Some (mergedWith (keyOf b) ob exc) ∧
  isRRule (mergedWith (keyOf b) ob exc) = true ∧
  ofc_id (mergedWith (keyOf b) ob exc) = ofc_id ob ∧
  date ∈ ofc_skipDates (mergedWith (keyOf b) ob exc) ∧
  Single id title date endDate timing ∈ exc.*2.
Proof.
  intros (base & Hbase & Hexc & ->)%reconcile_Ok Hb He Hex Hkey Hob Hrr Hoe.
  destruct (baseEvents_last R events base b Hbase Hb) as (ob' & Hob' & Hget).
  assert (ob' = ob) as -> by congruence.
  destruct (entriesOf_elem R _ exc e Hexc) as (oe & Hoe' & Hin).
  { by apply elem_of_filter_bool. }
  assert (oe = Single id title date endDate timing) as -> by congruence.
  split_and!.
  - rewrite merge_loop_get by apply fromEntries_NoDup. by rewrite Hget.
  - by rewrite mergedWith_isRRule.
  - apply mergedWith_id.
  - unfold mergedWith. eapply foldl_mergeInto_date; [done|].
    rewrite <-Hkey. by apply elem_of_exceptionsOf.
  - apply list_elem_of_fmap. by eexists (_, _).
Qed.

Lemma allEvents_Ok R events M exc :
  reconcile R events = Ok (M, exc) →
  allEvents R events = Ok (JS.values M ++ exc.*2)%list.
Proof. unfold allEvents. by intros ->. Qed.

Lemma convertEvents_Ok R events out :
  convertEvents R events = Ok out ↔
  ∃ M exc, reconcile R events = Ok (M, exc) ∧
           out = omap validateEvent (JS.values M ++ exc.*2)%list.
Proof.
  unfold convertEvents, allEvents. split.
  - destruct (reconcile R events) as [[M exc]|]; [|done]. simpl.
    intros [= <-]. by exists M, exc.
  - by intros (M & exc & -> & ->).
Qed.


(** C4, as amended.  Take an override that converted to a single
    occurrence and whose key is that of a base event no later base event
    shares, one that converted to a recurring event.  After the
    reconciliation the record kept for the key is recurring, has the
    identifier of the base event, and lists the override's date among its
    exclusion dates; the override is among the recurrence exceptions; and
    the validator's result for either, when it accepts it, is in the
    output.  The output is the validated records of the base events
    followed by the validated recurrence exceptions in encounter order;
    the records of the base events are in encounter order when no two base
    events share a key and no key is an array index. *)
Theorem C4_override_reconciled R events out :
  convertEvents R events = Ok out →
  ∃ M exc,
    reconcile R events = Ok (M, exc) ∧
    entriesOf R (List.filter isException events) exc ∧
    out = omap validateEvent (JS.values M ++ exc.*2)%list ∧
    (∀ b e ob id title date endDate timing,
       lastBase events b → e ∈ events → isException e = true → keyOf e = keyOf b →
       icsToOFC R b = Ok ob → isRRule ob = true →
       icsToOFC R e = Ok (Single id title date endDate timing) →
       ∃ rec, JS.get M (keyOf b) = Some rec ∧ rec ∈ JS.values M ∧
              isRRule rec = true ∧ ofc_id rec = ofc_id ob ∧
              date ∈ ofc_skipDates rec ∧
              Single id title date endDate timing ∈ exc.*2 ∧
              (∀ v, validateEvent rec = Some v → v ∈ out) ∧
              (∀ v, validateEvent (Single id title date endDate timing) = Some v →
                    v ∈ out)) ∧
    (NoDup (keyOf <$> List.filter isBase events) →
     Forall (λ e, JS.isArrayIndex (keyOf e) = false) (List.filter isBase events) →
     ∃ base, entriesOf R (List.filter isBase events) base ∧
             JS.values M = (λ x, mergedWith (JS.toPropertyKey x.1) x.2 exc) <$> base).
Proof.
  intros (M & exc & Hrec & ->)%convertEvents_Ok. exists M, exc.
  pose proof Hrec as (base & Hbase & Hexc & HM)%reconcile_Ok.
  split_and!; [done..| |].
  - intros b e ob id title date endDate timing Hb He Hex Hkey Hob Hrr Hoe.
    destruct (override_date_merged R events M exc b e ob id title date endDate timing)
      as (Hget & Hrec' & Hid & Hdate & Hin); [done..|].
    exists (mergedWith (keyOf b) ob exc).
    pose proof (get_elem_of_values _ _ _ Hget) as Hval.
    split_and!; [done..| |].
    + intros v Hv. apply list_elem_of_omap. eexists. split; [|exact Hv].
      apply elem_of_app. by left.
    + intros v Hv. apply list_elem_of_omap. eexists. split; [|exact Hv].
      apply elem_of_app. by right.
  - intros Hnd Hidx. exists base. split; [done|]. subst M.
    rewrite reconciled_object.
    assert ((entryKey <$> base).*1 = keyOf <$> List.filter isBase events) as Hkeys
      by by eapply entriesOf_keys.
    rewrite fromEntries_distinct by (by rewrite Hkeys).
    rewrite values_named.
    + rewrite <-!list_fmap_compose. by apply list_fmap_ext.
    + apply Forall_fmap, Forall_fmap, Forall_forall. intros x Hx. simpl.
      assert (JS.toPropertyKey x.1 ∈ keyOf <$> List.filter isBase events) as Hk.
      { rewrite <-Hkeys. apply list_elem_of_fmap. exists (entryKey x).
        split; [done|]. by apply list_elem_of_fmap_2. }
      apply list_elem_of_fmap in Hk as (e & -> & He).
      by eapply Forall_forall in Hidx.
Qed.

(** C6, as amended.  An override whose key is that of no base event passes
    through the reconciliation without effect and without error: the
    object of base events is the one the calendar without the override
    gives.  The override is not dropped: it is among the recurrence
    exceptions, and the validator's result for it, when it accepts it, is
    in the output. *)
Theorem C6_orphan_override R (l1 l2 : list ICAL.Event) e oe M exc' :
  isException e = true →
  Forall (λ b, isBase b = true → keyOf b ≠ keyOf e) (l1 ++ l2) →
  icsToOFC R e = Ok oe →
  reconcile R (l1 ++ l2) = Ok (M, exc') →
  ∃ exc out,
    reconcile R (l1 ++ e :: l2) = Ok (M, exc) ∧
    oe ∈ exc.*2 ∧
    convertEvents R (l1 ++ e :: l2) = Ok out ∧
    ∀ v, validateEvent oe = Some v → v ∈ out.
Proof.
  intros Hex Horphan Hoe (base & Hbase & Hexc & ->)%reconcile_Ok.
  rewrite List.filter_app in Hexc.
  apply Forall2_app_inv_l in Hexc as (x1 & x2 & Hx1 & Hx2 & ->).
  set (exc := (x1 ++ (ICAL.uid e, oe) :: x2)%list).
  assert (reconcile R (l1 ++ e :: l2) =
          Ok (foldl mergeException (JS.fromEntries (entryKey <$> base)) (x1 ++ x2), exc))
    as Hrec.
  { apply reconcile_Ok. exists base. split_and!.
    - rewrite List.filter_app in *. simpl. unfold isBase at 2. by rewrite Hex.
    - rewrite List.filter_app. simpl. rewrite Hex.
      apply Forall2_app; [done|]. by constructor.
    - rewrite !reconciled_object. apply list_fmap_ext. intros _ [k v] Hkv%list_elem_of_lookup_2.
      unfold mergedEntry, mergedWith, exceptionsOf, exc. simpl.
      rewrite !List.filter_app. simpl.
      destruct (String.eqb_spec (JS.toPropertyKey (ICAL.uid e)) k) as [<-|]; [|done].
      exfalso.
      assert (keyOf e ∈ (entryKey <$> base).*1) as Hk.
      { apply fromEntries_keys, list_elem_of_fmap. by exists (keyOf e, v). }
      rewrite (entriesOf_keys _ _ _ Hbase) in Hk.
      apply list_elem_of_fmap in Hk as (b & Hkb & [Hb Hbb]%elem_of_filter_bool).
      eapply Forall_forall in Horphan; [|done]. by apply Horphan. }
  exists exc, (omap validateEvent
                 (JS.values (foldl mergeException (JS.fromEntries (entryKey <$> base)) (x1 ++ x2))
                  ++ exc.*2)%list).
  assert (oe ∈ exc.*2) as Hin.
  { unfold exc. rewrite fmap_app. csimpl. apply elem_of_app. right. left. }
  split_and!; [done..| |].
  - apply convertEvents_Ok. by eexists _, _.
  - intros v Hv. apply list_elem_of_omap. exists oe. split; [|done].
    apply elem_of_app. by right.
Qed.


End ReconcilerClaims.

(** * Further properties of the converter *)

(** ** The rewrite of BYDAY tokens *)

Section RotationFacts.

(** On the seven weekday codes the callback of the rewrite is a rotation:
    the opposite day difference undoes it. *)
Theorem shiftDay_round_trip (day_diff : Z) (p : string) :
  (-6 ≤ day_diff ≤ 6)%Z → p ∈ WEEK_DAYS →
  shiftDay day_diff p ∈ WEEK_DAYS ∧
  shiftDay (- day_diff) (shiftDay day_diff p) = p.
Proof.
  intros Hd Hp.
  assert (day_diff = -6 ∨ day_diff = -5 ∨ day_diff = -4 ∨ day_diff = -3 ∨
          day_diff = -2 ∨ day_diff = -1 ∨ day_diff = 0 ∨ day_diff = 1 ∨
          day_diff = 2 ∨ day_diff = 3 ∨ day_diff = 4 ∨ day_diff = 5 ∨
          day_diff = 6)%Z as Hd' by lia.
  assert (∀ d q, q ∈ WEEK_DAYS →
            bool_decide (shiftDay d q ∈ WEEK_DAYS) &&
            String.eqb (shiftDay (- d) (shiftDay d q)) q = true →
            shiftDay d q ∈ WEEK_DAYS ∧ shiftDay (- d) (shiftDay d q) = q) as Hcheck.
  { intros d q _ [Hin Heq]%andb_true_iff. split.
    - by apply bool_decide_eq_true in Hin.
    - by apply String.eqb_eq. }
  apply Hcheck; [done|]. clear Hcheck Hd.
  unfold WEEK_DAYS in Hp.
  repeat (apply elem_of_cons in Hp as [->|Hp]);
    [..|by apply elem_of_nil in Hp];
    (repeat (destruct Hd' as [->|Hd'])); subst; by vm_compute.
Qed.

Lemma get_Some_key {V} (o : list (string * V)) k v : JS.get o k = Some v → k ∈ o.*1.
Proof.
  intros Hg. destruct (decide (k ∈ o.*1)) as [|Hn]; [done|].
  apply get_None in Hn. congruence.
Qed.

(** The rewrite touches the BYDAY list and nothing else of the rule: the
    other fields, the names of the parts and their order, and every other
    part stay; the BYDAY list keeps its length, token by token. *)
Theorem shiftByDay_frame (day_diff : Z) (fv : ICAL.Recur) :
  let fv' := shiftByDay day_diff fv in
  ICAL.freq fv' = ICAL.freq fv ∧ ICAL.count fv' = ICAL.count fv ∧
  ICAL.interval fv' = ICAL.interval fv ∧ ICAL.until fv' = ICAL.until fv ∧
  ICAL.wkst fv' = ICAL.wkst fv ∧
  (ICAL.parts fv').*1 = (ICAL.parts fv).*1 ∧
  (∀ k, k ≠ "BYDAY" → JS.get (ICAL.parts fv') k = JS.get (ICAL.parts fv) k) ∧
  JS.get (ICAL.parts fv') "BYDAY" =
    (λ tokens : list string, shiftDay day_diff <$> tokens)
      <$> JS.get (ICAL.parts fv) "BYDAY".
Proof.
  unfold shiftByDay.
  destruct (JS.get (ICAL.parts fv) "BYDAY") as [tokens|] eqn:Hget; simpl.
  - split_and!; try done.
    + apply set_keys_present. by eapply get_Some_key.
    + intros k Hk. by apply get_set_other.
    + apply get_set_same.
  - by rewrite Hget.
Qed.

End RotationFacts.

(** ** When a conversion succeeds, and when the call does *)

Section ConversionFacts.
Context `{Luxon} `{JSDate.Runtime} `{Collaborators}.
Implicit Types (R : ICAL.Registry) (evt : ICAL.Event).

Lemma toJSDate_toUnixTime `{JSDate.Runtime} (t : ICAL.Time) js :
  ICAL.toJSDate t = Ok js → ∃ u, ICAL.toUnixTime t = Ok u.
Proof.
  unfold ICAL.toJSDate, ICAL.toUnixTime, ICAL.utcOffset.
  destruct (ICAL.zone t) as [| |tz]; simpl; [by eexists..|].
  destruct (ICAL.tz_utcOffset tz (ICAL.data t)); [by eexists|done].
Qed.

(** The rule a conversion would hand to [rrulestr]: the RRULE value,
    rewritten when the weekdays differ. *)
Definition ruleToParse R evt : option ICAL.Recur :=
  match adjustedRule R evt with
  | Ok (Some fv) => Some fv
  | _ => None
  end.

(** An event that passed the filter converts unless it is recurring and
    has no RRULE property (a series given by RDATE alone) or has a rule
    that [rrulestr] rejects. *)
Lemma retained_converts R evt :
  resolves R evt = true →
  (∃ o, icsToOFC R evt = Ok o) ↔
  (ICAL.isRecurring evt = false ∨
   ∃ fv0 fv rule, ICAL.rrule evt = Some fv0 ∧ ruleToParse R evt = Some fv ∧
                  rrulestr (ICAL.Recur_toString fv) = Ok rule).
Proof.
  intros (sd & ed & js & je & Hsd & Hjs & Hed & Hje)%resolves_true.
  destruct (toJSDate_toUnixTime _ _ Hjs) as [u Hu].
  assert (∃ timing, timeInfo R evt (ICAL.fromData R sd) = Ok timing) as [timing Htm].
  { unfold timeInfo. rewrite Hed. simpl. destruct (ICAL.isDate sd); by eexists. }
  assert (∃ d, getDate (ICAL.fromData R sd) = Ok d) as [d Hd].
  { unfold getDate. rewrite Hu. by eexists. }
  unfold ruleToParse, icsToOFC. rewrite Hsd. simpl.
  destruct (ICAL.isRecurring evt) eqn:Hrec.
  - split.
    + intros [o Ho]. right.
      destruct (adjustedRule R evt) as [[fv|]|] eqn:Hadj; [|done..]. simpl in Ho.
      destruct (rrulestr _) as [rule|] eqn:Hrule; [|done].
      destruct (ICAL.rrule evt) as [fv0|] eqn:Hr; [by exists fv0, fv, rule|].
      exfalso. revert Hadj. unfold adjustedRule, dayDiff.
      rewrite Hsd, Hr. simpl. rewrite Hjs. simpl. by destruct (_ =? _)%Z.
    + intros [?|(fv0 & fv & rule & _ & Hfv & Hrule)]; [done|].
      destruct (adjustedRule R evt) as [[fv'|]|]; [|done..].
      injection Hfv as ->. simpl. rewrite Hrule. simpl. rewrite Hd. simpl.
      rewrite Htm. simpl. by eexists.
  - split; [by left|]. intros _. rewrite Htm. simpl. by eexists.
Qed.

Lemma entriesOf_converts R events xs :
  Forall2 (λ e x, toEntry R e = Ok x) events xs →
  Forall (λ e, ∃ o, icsToOFC R e = Ok o) events.
Proof.
  induction 1 as [|e x events xs Hx _ IH]; constructor; [|done].
  unfold toEntry in Hx. destruct (icsToOFC R e); [by eexists|done].
Qed.

Lemma convertEvents_Ok_converts R events out :
  convertEvents R events = Ok out → Forall (λ e, ∃ o, icsToOFC R e = Ok o) events.
Proof.
  unfold convertEvents, allEvents, reconcile.
  destruct (mapM (toEntry R) (List.filter (λ e, negb (isException e)) events))
    as [base|] eqn:Hb; [|done]. simpl.
  destruct (mapM (toEntry R) (List.filter isException events)) as [exc|] eqn:He; [|done].
  intros _. apply mapM_Ok_Forall2, entriesOf_converts in Hb, He.
  apply Forall_forall. intros e Hin. destruct (isException e) eqn:Hex.
  - eapply Forall_forall in He; [done|]. by apply elem_of_filter_bool.
  - eapply Forall_forall in Hb; [done|]. apply elem_of_filter_bool. by rewrite Hex.
Qed.


(** One VEVENT with RDATE and without RRULE, its start and end resolved,
    makes the whole call throw. *)
Theorem rdate_only_event_aborts (text : string) R component evt :
  ical_parse text = Ok component →
  evt ∈ retained (registerAll R component) component →
  ICAL.rrule evt = None → ICAL.hasRDate evt = true →
  ∃ e, (getEventsFromICS text R).1 = Throw e.
Proof.
  intros Hp Hin Hr Hrd. unfold getEventsFromICS. rewrite Hp. simpl.
  destruct (convertEvents _ _) as [out|e] eqn:Hres; [|by eexists].
  apply convertEvents_Ok_converts in Hres.
  eapply Forall_forall in Hres; [|done].
  apply retained_converts in Hres.
  - destruct Hres as [Hrec|(fv0 & _ & _ & Hfv0 & _)]; [|congruence].
    unfold ICAL.isRecurring in Hrec. rewrite Hrd in Hrec.
    by rewrite orb_true_r in Hrec.
  - unfold retained in Hin. by apply elem_of_filter_bool in Hin as [_ ?].
Qed.

(** ** The zone table after a call *)

(** After a call on a text that parses, and whatever the outcome of the
    conversion, a name declared by a VTIMEZONE of the text stands for the
    last such VTIMEZONE, and every other name stands for what it stood for
    before.  A text that does not parse leaves the table as it was. *)
Theorem zone_table_after_call (text : string) R :
  match ical_parse text with
  | Throw _ => (getEventsFromICS text R).2 = R
  | Ok component =>
      let zones := ICAL.vtimezone_subcomponents component in
      (∀ pre tz post,
         zones = (pre ++ tz :: post)%list →
         Forall (λ z, ICAL.tzid z ≠ ICAL.tzid tz) post →
         (getEventsFromICS text R).2 !! ICAL.tzid tz = Some (ICAL.vtimezone tz)) ∧
      (∀ name, name ∉ ICAL.tzid <$> zones →
               (getEventsFromICS text R).2 !! name = R !! name)
  end.
Proof.
  unfold getEventsFromICS. destruct (ical_parse text) as [component|e]; [|done].
  cbv zeta. simpl. unfold registerAll.
  assert (∀ zs R0 name, name ∉ ICAL.tzid <$> zs →
            foldl ICAL.register R0 zs !! name = R0 !! name) as Hother.
  { induction zs as [|z zs IH]; intros R0 name; csimpl; [done|].
    rewrite not_elem_of_cons. intros [Hne Hin]. rewrite IH by done.
    unfold ICAL.register. by rewrite lookup_insert_ne. }
  split; [|by intros; apply Hother].
  intros pre tz post -> Hpost. rewrite foldl_app. simpl.
  rewrite Hother.
  - unfold ICAL.register. apply lookup_insert_eq.
  - intros (z & Hz & Hin)%list_elem_of_fmap.
    eapply Forall_forall in Hpost; [|done]. congruence.
Qed.

End ConversionFacts.

(** ** How far the weekdays move *)

Section ShiftFacts.
Context `{Luxon} `{JSDate.Runtime} `{Collaborators}.

Lemma shiftDay_mod (d d' : Z) (p : string) :
  (-6 ≤ d ≤ 6)%Z → (-6 ≤ d' ≤ 6)%Z → (d mod 7 = d' mod 7)%Z →
  shiftDay d p = shiftDay d' p.
Proof. intros ?? Hm. rewrite !shiftDay_rotateToken by done. by rewrite Hm. Qed.

Lemma WeekDay_diff (t a : Z) :
  (- JSDate.msPerDay < a < JSDate.msPerDay)%Z →
  let d := (JSDate.WeekDay t - JSDate.WeekDay (t + a))%Z in
  (d = 0 ∨ d = 1 ∨ d = -6 ∨ d = -1 ∨ d = 6)%Z ∧
  (0 ≤ a → d = 0 ∨ d = -1 ∨ d = 6)%Z ∧ (a ≤ 0 → d = 0 ∨ d = 1 ∨ d = -6)%Z.
Proof.
  unfold JSDate.WeekDay, JSDate.Day, JSDate.msPerDay. intros Ha. cbv zeta.
  Z.to_euclidean_division_equations. lia.
Qed.

(** Local time is less than a day from UTC, so the two weekdays of an
    instant are the same or neighbours: [day_diff] is 0, or 1 or -6 and
    every BYDAY token moves to the following day, or -1 or 6 and every
    token moves to the preceding day.  On a host east of UTC the tokens
    never move forward, on a host west of UTC never backward. *)
Theorem week_shift_is_one_day (start : ICAL.Time) (d : Z) :
  (∀ t, (- JSDate.msPerDay < JSDate.LocalTZA t true < JSDate.msPerDay)%Z) →
  dayDiff start = Ok d →
  (d = 0%Z ∨
   ((d = 1 ∨ d = -6)%Z ∧ ∀ p, shiftDay d p = shiftDay 1 p) ∨
   ((d = -1 ∨ d = 6)%Z ∧ ∀ p, shiftDay d p = shiftDay (-1) p)) ∧
  ((∀ t, (0 ≤ JSDate.LocalTZA t true)%Z) → (d = 0 ∨ d = -1 ∨ d = 6)%Z) ∧
  ((∀ t, (JSDate.LocalTZA t true ≤ 0)%Z) → (d = 0 ∨ d = 1 ∨ d = -6)%Z).
Proof.
  intros Hbound. unfold dayDiff.
  destruct (ICAL.toJSDate start) as [js|]; [|done]. intros [= <-].
  unfold JSDate.getUTCDay, JSDate.getDay, JSDate.LocalTime.
  destruct (WeekDay_diff js (JSDate.LocalTZA js true) (Hbound js)) as (Hd & Heast & Hwest).
  set (d := (JSDate.WeekDay js - JSDate.WeekDay (js + JSDate.LocalTZA js true))%Z) in *.
  clearbody d. split_and!.
  - destruct Hd as [->|[->|[->|[->| ->]]]]; [by left|..].
    + right; left. split; [by left|done].
    + right; left. split; [by right|]. intros p. by apply shiftDay_mod.
    + right; right. split; [by left|done].
    + right; right. split; [by right|]. intros p. by apply shiftDay_mod.
  - intros Hpos. apply Heast, Hpos.
  - intros Hneg. apply Hwest, Hneg.
Qed.

(** The time of day a start is written with, in milliseconds. *)
Definition timeOfDay (d : ICAL.TimeData) : Z :=
  if ICAL.isDate d then 0%Z
  else JSDate.MakeTime (ICAL.hour d) (ICAL.minute d) (ICAL.second d) 0.

(** On a host at a fixed offset east of UTC, a series whose start is
    floating (an all-day start, or a time without zone) and written with a
    time of day earlier than the offset has every BYDAY token moved to the
    preceding day: local midnight is still the day before in UTC. *)
Theorem floating_series_shifts_back (a : Z) R (input : ICAL.Event) sd fv :
  (∀ t b, JSDate.LocalTZA t b = a) → (0 < a ≤ JSDate.msPerDay)%Z →
  ICAL.startDate input = Some sd →
  ICAL.isFloating (ICAL.zone (ICAL.fromData R sd)) = true →
  (0 ≤ timeOfDay sd < a)%Z →
  ICAL.rrule input = Some fv →
  adjustedRule R input = Ok (Some (shiftByDay (-1) fv)).
Proof.
  intros Htza Ha Hsd Hfl Htod Hfv.
  unfold adjustedRule, dayDiff. rewrite Hsd, Hfv. simpl.
  set (D := JSDate.MakeDay (JSDate.MakeFullYear (ICAL.year sd)) (ICAL.month sd - 1)
                           (ICAL.day sd)).
  assert (ICAL.toJSDate (ICAL.fromData R sd) =
          Ok (D * JSDate.msPerDay + timeOfDay sd - a)%Z) as ->.
  { unfold ICAL.toJSDate. rewrite Hfl. simpl. unfold timeOfDay, JSDate.construct.
    rewrite !Htza. unfold JSDate.MakeDate. fold D.
    by destruct (ICAL.isDate sd). }
  simpl. unfold JSDate.getUTCDay, JSDate.getDay, JSDate.LocalTime. rewrite Htza.
  set (d := (JSDate.WeekDay _ - JSDate.WeekDay _)%Z).
  assert (d = -1 ∨ d = 6)%Z as Hd.
  { subst d. unfold JSDate.WeekDay, JSDate.Day in *. unfold JSDate.msPerDay in *.
    generalize dependent (timeOfDay sd). intros tod Htod. clearbody D.
    Z.to_euclidean_division_equations. lia. }
  destruct (Z.eqb_spec d 0) as [?|_]; [lia|]. simpl. do 2 f_equal.
  unfold shiftByDay. destruct (JS.get _ _) as [tokens|]; [|done].
  f_equal. apply list_fmap_ext. intros _ p _.
  apply shiftDay_mod; [lia..|]. by destruct Hd as [->| ->].
Qed.

End ShiftFacts.

(** ** The record a base event leaves *)

Section RecordFacts.
Context `{Luxon} `{JSDate.Runtime} `{Collaborators}.
Implicit Types (R : ICAL.Registry) (events : list ICAL.Event).
Implicit Types (M : list (string * OFCEvent)) (exc base : list (option string * OFCEvent)).

(** The dates of the single-occurrence events of a list, in order. *)
Definition singleDates (es : list OFCEvent) : list (option string) :=
  omap (λ e, match e with
             | Single _ _ date _ _ => Some date
             | RRule _ _ _ _ _ _ => None
             end) es.

(** A recurring event with [dates] pushed to its exclusion list; any other
    event as it is. *)
Definition withSkipDates (b : OFCEvent) (dates : list (option string)) : OFCEvent :=
  match b with
  | RRule id title rrule skipDates startDate timing =>
      RRule id title rrule (skipDates ++ dates)%list startDate timing
  | Single _ _ _ _ _ => b
  end.

(** [getDateL(t.toString(), t.timezone)] of a time, and of the start of an
    event. *)
Definition dateL R (d : ICAL.TimeData) : option string :=
  getDateL (ICAL.toString (ICAL.fromData R d)) (ICAL.timezone d).

Definition startDateL R (e : ICAL.Event) : option string :=
  match ICAL.startDate e with
  | Some sd => dateL R sd
  | None => None
  end.

(** The components with RECURRENCE-ID, without RRULE and RDATE, that are
    filed under the key [k], in encounter order. *)
Definition overridesOf (k : string) events : list ICAL.Event :=
  List.filter (λ e, isException e && (negb (ICAL.isRecurring e) && String.eqb (keyOf e) k))
              events.

Lemma foldl_mergeInto_exact (b : OFCEvent) (es : list OFCEvent) :
  foldl mergeInto b es = withSkipDates b (singleDates es).
Proof.
  revert b. induction es as [|e es IH]; intros b.
  - destruct b; simpl; [done|]. by rewrite app_nil_r.
  - simpl. rewrite IH. destruct b, e; try done. csimpl. by rewrite <-app_assoc.
Qed.

Lemma filter_filter_bool {A} (f g : A → bool) (l : list A) :
  List.filter g (List.filter f l) = List.filter (λ x, f x && g x) l.
Proof.
  induction l as [|x l IH]; simpl; [done|].
  destruct (f x); simpl; [|done]. destruct (g x); by rewrite IH.
Qed.

Lemma singleDates_entries R (l : list ICAL.Event) xs k :
  entriesOf R l xs →
  singleDates (exceptionsOf k xs) =
  startDateL R <$> List.filter (λ e, negb (ICAL.isRecurring e) && String.eqb (keyOf e) k) l.
Proof.
  unfold exceptionsOf.
  induction 1 as [|e [u o] l xs [Hu Ho] _ IH]; [done|].
  simpl in Hu, Ho. subst u. simpl. fold (keyOf e).
  destruct (String.eqb (keyOf e) k); [|by rewrite andb_false_r].
  rewrite andb_true_r.
  apply icsToOFC_Ok in Ho as (sd & timing & Hsd & _ & Ho). simpl in Ho.
  destruct (ICAL.isRecurring e); simpl.
  - destruct Ho as (? & ? & ? & _ & _ & _ & ->). by csimpl.
  - destruct Ho as (? & ->). csimpl. f_equal; [|exact IH].
    unfold startDateL, dateL. by rewrite Hsd.
Qed.

(** What a call keeps for the key of a base event that no later base event
    shares: the conversion of that event, and, when it is recurring, with
    the start dates of the overrides of its key that are not recurring
    themselves pushed behind its EXDATEs, in encounter order, repeated
    dates included.  The pushed date is the override's own start, not what
    its RECURRENCE-ID says; a base event that is not recurring stays as it
    was converted. *)
Theorem record_of_last_base R events M exc (b : ICAL.Event) :
  reconcile R events = Ok (M, exc) → lastBase events b →
  ∃ ob,
    icsToOFC R b = Ok ob ∧
    JS.get M (keyOf b) =
      Some (withSkipDates ob (startDateL R <$> overridesOf (keyOf b) events)) ∧
    (ICAL.isRecurring b = false → JS.get M (keyOf b) = Some ob) ∧
    (ICAL.isRecurring b = true →
     ∃ record, JS.get M (keyOf b) = Some record ∧ isRRule record = true ∧
               ofc_skipDates record =
                 ((dateL R <$> ICAL.exdate b) ++
                  (startDateL R <$> overridesOf (keyOf b) events))%list).
Proof.
  intros (base & Hbase & Hexc & ->)%reconcile_Ok Hb.
  destruct (baseEvents_last R events base b Hbase Hb) as (ob & Hob & Hget).
  assert (JS.get (foldl mergeException (JS.fromEntries (entryKey <$> base)) exc) (keyOf b) =
          Some (withSkipDates ob (startDateL R <$> overridesOf (keyOf b) events))) as HM.
  { rewrite merge_loop_get, Hget by apply fromEntries_NoDup. simpl.
    unfold mergedWith. rewrite foldl_mergeInto_exact.
    rewrite (singleDates_entries R _ exc (keyOf b) Hexc).
    unfold overridesOf. by rewrite filter_filter_bool. }
  exists ob. split_and!; [done..| |].
  - intros Hrec. rewrite HM. f_equal.
    apply icsToOFC_Ok in Hob as (? & ? & _ & _ & Hob). simpl in Hob.
    rewrite Hrec in Hob. by destruct Hob as (? & ->).
  - intros Hrec. eexists. split; [exact HM|].
    apply icsToOFC_Ok in Hob as (? & ? & _ & _ & Hob). simpl in Hob.
    rewrite Hrec in Hob. by destruct Hob as (? & ? & ? & _ & _ & _ & ->).
Qed.





Lemma fromEntries_keys_in {V} (es : list (string * V)) k :
  k ∈ es.*1 → k ∈ (JS.fromEntries es).*1.
Proof.
  induction es as [|e es IH] using rev_ind; [done|].
  rewrite fromEntries_snoc, fmap_app, elem_of_app. csimpl.
  destruct (decide (k ∈ (JS.fromEntries es).*1)) as [Hin|Hout].
  - intros _. destruct (decide (e.1 ∈ (JS.fromEntries es).*1)).
    + by rewrite set_keys_present.
    + rewrite set_fresh, fmap_app by done. apply elem_of_app. by left.
  - intros [Hk|Hk%list_elem_of_singleton]; [by apply IH in Hk|]. subst k.
    rewrite set_fresh, fmap_app by done. apply elem_of_app. right. csimpl. left.
Qed.

Lemma length_omap_le {A B} (f : A → option B) (l : list A) :
  (length (omap f l) ≤ length l)%nat.
Proof. induction l as [|a l IH]; csimpl; [done|]. destruct (f a); simpl; lia. Qed.

Lemma length_remove_dups_le (l : list string) :
  (length (remove_dups l) ≤ length l)%nat.
Proof.
  induction l as [|k l IH]; simpl; [done|]. destruct (decide_rel _ _ _); simpl; lia.
Qed.

(** The events before validation are one per distinct key among the base
    events, and one per component with RECURRENCE-ID: a series is never
    expanded and an override never removed, so a call returns at most as
    many events as there are components. *)
Theorem event_count R events (out : list OFCEvent) :
  convertEvents R events = Ok out →
  ∃ all,
    allEvents R events = Ok all ∧
    length all = (length (remove_dups (keyOf <$> List.filter isBase events)) +
                  length (List.filter isException events))%nat ∧
    (length out ≤ length all ≤ length events)%nat.
Proof.
  intros (M & exc & Hrec & ->)%convertEvents_Ok.
  exists (JS.values M ++ exc.*2)%list. split; [by apply allEvents_Ok|].
  apply reconcile_Ok in Hrec as (base & Hbase & Hexc & ->).
  assert (length (JS.values (foldl mergeException (JS.fromEntries (entryKey <$> base)) exc)) =
          length (remove_dups (keyOf <$> List.filter isBase events))) as Hlen.
  { rewrite values_Permutation, length_fmap.
    rewrite <-(length_fmap fst), merge_loop_keys by apply fromEntries_NoDup.
    apply Permutation_length, NoDup_Permutation.
    - apply fromEntries_NoDup.
    - apply NoDup_remove_dups.
    - intros k. rewrite elem_of_remove_dups, <-(entriesOf_keys R _ base Hbase).
      split; [apply fromEntries_keys|apply fromEntries_keys_in]. }
  assert (length exc.*2 = length (List.filter isException events)) as Hlen'.
  { rewrite length_fmap. symmetry. by eapply Forall2_length. }
  rewrite length_app, Hlen, Hlen'. split; [done|]. split.
  - etrans; [apply length_omap_le|]. by rewrite length_app, Hlen, Hlen'.
  - assert (length (remove_dups (keyOf <$> List.filter isBase events))
            ≤ length (List.filter isBase events))%nat as Hle.
    { etrans; [apply length_remove_dups_le|]. by rewrite length_fmap. }
    assert (length (List.filter isBase events) + length (List.filter isException events)
            = length events)%nat as Hsplit.
    { clear. unfold isBase. induction events as [|e events IH]; simpl; [done|].
      destruct (isException e); simpl; lia. }
    lia.
Qed.

End RecordFacts.

(** ** Identifiers of the two kinds *)

Section IdentifierFacts.
Context `{Luxon} `{JSDate.Runtime} `{Collaborators}.

Fixpoint lastChar (s : string) : option ascii :=
  match s with
  | EmptyString => None
  | String c s' => match lastChar s' with Some c' => Some c' | None => Some c end
  end.

Lemma lastChar_app (s t : string) :
  lastChar (s +:+ t) = match lastChar t with Some c => Some c | None => lastChar s end.
Proof.
  induction s as [|c s IH].
  - change ("" +:+ t) with t. by destruct (lastChar t).
  - change (String c s +:+ t) with (String c (s +:+ t)). simpl.
    rewrite IH. by destruct (lastChar t), (lastChar s).
Qed.

(** A recurring event and a single event never carry the same identifier,
    whatever their UIDs and dates: a series and the overrides filed under
    its UID stay apart. *)
Theorem recurring_and_single_ids_differ R (e e' : ICAL.Event) (o o' : OFCEvent) :
  icsToOFC R e = Ok o → icsToOFC R e' = Ok o' →
  isRRule o = true → isRRule o' = false →
  ofc_id o ≠ ofc_id o'.
Proof.
  intros (sd & tm & _ & _ & Ho)%icsToOFC_Ok (sd' & tm' & _ & _ & Ho')%icsToOFC_Ok Hr Hs.
  simpl in Ho, Ho'.
  destruct (ICAL.isRecurring e); [|destruct Ho as (? & ->); by simpl in Hr].
  destruct (ICAL.isRecurring e');
    [destruct Ho' as (? & ? & ? & _ & _ & _ & ->); by simpl in Hs|].
  destruct Ho as (? & ? & ? & _ & _ & _ & ->). destruct Ho' as (? & ->). simpl.
  intros Heq%(f_equal lastChar). by rewrite !lastChar_app in Heq.
Qed.

End IdentifierFacts.

(** * The earlier converter, [src/calendars/parsing/ics.ts]

    The repository also holds the converter as it was before the default
    zone, the [Z] zone and the rewriting of BYDAY came in.  Its [getDate]
    and [getTime] are those above, with the zone written out; its
    [getDateL] and [getTimeL] hand the zone name to luxon as it is. *)

(** [DateTime.fromISO(tstr, {zone: new IANAZone(undefined)})], which is
    how a time without zone name reaches luxon there. *)
Class LuxonUnnamed `{Luxon} : Type := { fromISOUnnamed : string → DateTime }.

Module Legacy.

Section Converter.
Context `{Luxon} `{!LuxonUnnamed} `{JSDate.Runtime} `{Collaborators}.

Definition getDateL (tstr : string) (tzone : option string) : option string :=
  let t := match tzone with
           | Some z => fromISO tstr z
           | None => fromISOUnnamed tstr
           end in
  toISODate (setZone t "Asia/Seoul").

Definition getTimeL (tstr : string) (tzone : option string) : option string :=
  let t := match tzone with
           | Some z => fromISO tstr z
           | None => fromISOUnnamed tstr
           end in
  toISOTime (setZone t "Asia/Seoul").

Definition icsToOFC (R : ICAL.Registry) (input : ICAL.Event) : result OFCEvent :=
  if ICAL.isRecurring input then
    fv ← deref (ICAL.rrule input);
    rrule ← rrulestr (ICAL.Recur_toString fv);
    start ← deref (ICAL.fromData R <$> ICAL.startDate input);
    exdates ← mapM (λ d, getDate (ICAL.fromData R d)) (ICAL.exdate input);
    idDate ← getDate start;
    let id := "ics::" +:+ JS.templateStr (ICAL.uid input) +:+ "::"
                      +:+ JS.templateStr idDate +:+ "::recurring" in
    startDate ← getDate start;
    timing ← (if ICAL.isDate (ICAL.data start) then Ok AllDay
              else startTime ← getTime start;
                   end_ ← deref (ICAL.fromData R <$> ICAL.endDate input);
                   endTime ← getTime end_;
                   Ok (Timed startTime endTime));
    Ok (RRule id (ICAL.summary input) rrule exdates startDate timing)
  else
    start ← deref (ICAL.fromData R <$> ICAL.startDate input);
    let date := getDateL (ICAL.toString start) (ICAL.timezone (ICAL.data start)) in
    let endDate :=
      match (if specifiesEnd input then ICAL.fromData R <$> ICAL.endDate input else None) with
      | Some end_ => getDateL (ICAL.toString end_) (ICAL.timezone (ICAL.data end_))
      | None => None
      end in
    let id := "ics::" +:+ JS.templateStr (ICAL.uid input) +:+ "::"
                      +:+ JS.templateStr date +:+ "::single" in
    timing ← (if ICAL.isDate (ICAL.data start) then Ok AllDay
              else end_ ← deref (ICAL.fromData R <$> ICAL.endDate input);
                   Ok (Timed (getTimeL (ICAL.toString start) (ICAL.timezone (ICAL.data start)))
                             (getTimeL (ICAL.toString end_) (ICAL.timezone (ICAL.data end_)))));
    Ok (Single id (ICAL.summary input) date
               (if bool_decide (date = endDate) then None else endDate) timing).

End Converter.

End Legacy.


Section LegacyFacts.
Context `{Luxon} `{!LuxonUnnamed} `{JSDate.Runtime} `{Collaborators}.




(** On a recurring component that both converters convert, the events
    carry the same identifier and title and are all-day together; the
    earlier converter hands the RRULE to [rrulestr] as it is written, and
    the rules of the two events are the same when the weekdays of the
    start in UTC and on the host agree. *)
Theorem converters_on_recurring R (input : ICAL.Event) (o o' : OFCEvent) :
  ICAL.isRecurring input = true →
  Legacy.icsToOFC R input = Ok o → icsToOFC R input = Ok o' →
  ∃ fv sd id title rule rule' skip skip' date date' tm tm',
    ICAL.rrule input = Some fv ∧ ICAL.startDate input = Some sd ∧
    o = RRule id title rule skip date tm ∧
    o' = RRule id title rule' skip' date' tm' ∧
    rrulestr (ICAL.Recur_toString fv) = Ok rule ∧
    (tm = AllDay ↔ tm' = AllDay) ∧
    (dayDiff (ICAL.fromData R sd) = Ok 0%Z → rule' = rule).
Proof.
  intros Hrec Hold Hnew. unfold Legacy.icsToOFC in Hold. rewrite Hrec in Hold.
  destruct (ICAL.rrule input) as [fv|] eqn:Hfv; [|done]. simpl in Hold.
  destruct (rrulestr (ICAL.Recur_toString fv)) as [rule|] eqn:Hrule; [|done].
  simpl in Hold.
  destruct (ICAL.startDate input) as [sd|] eqn:Hsd; [|done]. simpl in Hold.
  destruct (mapM _ (ICAL.exdate input)) as [skip|]; [|done]. simpl in Hold.
  destruct (getDate (ICAL.fromData R sd)) as [idDate|] eqn:Hid; [|done]. simpl in Hold.
  apply icsToOFC_Ok in Hnew as (sd' & tm' & Hsd' & Htm' & Hnew).
  assert (sd' = sd) as -> by congruence. simpl in Hnew. rewrite Hrec in Hnew.
  destruct Hnew as (fv' & rule' & idDate' & Hadj & Hrule' & Hid' & ->).
  assert (idDate' = idDate) as -> by congruence.
  apply timeInfo_Ok in Htm'. simpl in Htm'.
  assert (∃ tm, o = RRule ("ics::" +:+ JS.templateStr (ICAL.uid input) +:+ "::"
                                   +:+ JS.templateStr idDate +:+ "::recurring")
                          (ICAL.summary input) rule skip idDate tm ∧
                (tm = AllDay ↔ tm' = AllDay)) as (tm & -> & Htm).
  { destruct (ICAL.isDate sd); simpl in Hold.
    - injection Hold as <-. by eexists.
    - destruct (getTime (ICAL.fromData R sd)) as [st|]; [|done]. simpl in Hold.
      destruct (ICAL.endDate input) as [ed|]; [|done]. simpl in Hold.
      destruct (getTime (ICAL.fromData R ed)) as [et|]; [|done]. simpl in Hold.
      injection Hold as <-. eexists. split; [done|].
      destruct Htm' as (? & _ & ->). by split. }
  do 12 eexists. split_and!; [done..|].
  intros Hzero. revert Hadj. unfold adjustedRule. rewrite Hsd, Hfv. simpl.
  rewrite Hzero. simpl. intros [= <-]. congruence.
Qed.

End LegacyFacts.

(** * The settings tab, [addCalendarButton]

    What the program computes itself before it hands over to Obsidian and
    React: the directories a new local calendar may take, and the path of
    the daily-note template. *)

Module Settings.

(** [s.endsWith(suffix)]; strings are sequences of bytes here, and a
    suffix of ASCII characters ends the one exactly when it ends the
    other. *)
Definition endsWith (s suffix : string) : bool :=
  let start := (Z.of_nat (String.length s) - Z.of_nat (String.length suffix))%Z in
  if (start <? 0)%Z then false
  else String.eqb (substring (Z.to_nat start) (String.length suffix) s) suffix.

(** The path given to [getAbstractFileByPath]; [None] when [template] is
    [undefined] or empty and no file is looked up. *)
Definition templatePath (template : option string) : option string :=
  match template with
  | None => None
  | Some template =>
      if String.eqb template "" then None
      else Some (if negb (endsWith template ".md") then template +:+ ".md" else template)
  end.

(** What the program reads of a [CalendarInfo], of a loaded file. *)
Record CalendarInfo : Type := { type : string; directory : option string }.
Record AbstractFile : Type := { isFolder : bool; path : string }.

(** [app.vault.getAllLoadedFiles().filter((f) => f instanceof TFolder)
    .map((f) => f.path)] *)
Definition directories (files : list AbstractFile) : list string :=
  path <$> List.filter isFolder files.

(** [sources.map((s) => s.type === "local" && s.directory)]: [None] is
    [false] or [undefined]. *)
Definition localDirectory (s : CalendarInfo) : option string :=
  if String.eqb (type s) "local" then directory s else None.

(** [.filter((s) => !!s)] *)
Definition truthy (v : option string) : option string :=
  match v with
  | Some d => if String.eqb d "" then None else Some d
  | None => None
  end.

(** [usedDirectories]: the list the caller's function returns, or else
    the directories of the local calendars in the settings. *)
Definition usedDirectories (listUsedDirectories : option (list string))
    (calendarSources : list CalendarInfo) : list string :=
  match listUsedDirectories with
  | Some used => used
  | None => omap truthy (localDirectory <$> calendarSources)
  end.

(** The [directories] property of the modal. *)
Definition offered (files : list AbstractFile) (used : list string) : list string :=
  List.filter (λ dir, (JS.indexOf used dir =? -1)%Z) (directories files).

End Settings.

Section SettingsFacts.

Lemma substring_append (s t : string) :
  substring (String.length s) (String.length t) (s +:+ t) = t.
Proof.
  induction s as [|c s IH].
  - change ("" +:+ t) with t. simpl.
    induction t as [|c t IH]; simpl; [done|]. by rewrite IH.
  - change (String c s +:+ t) with (String c (s +:+ t)). by simpl.
Qed.

Lemma length_append (s t : string) :
  String.length (s +:+ t) = (String.length s + String.length t)%nat.
Proof.
  induction s as [|c s IH]; [done|].
  change (String c s +:+ t) with (String c (s +:+ t)). simpl. by rewrite IH.
Qed.

Lemma endsWith_append (s t : string) : Settings.endsWith (s +:+ t) t = true.
Proof.
  unfold Settings.endsWith. rewrite length_append.
  replace (Z.of_nat (String.length s + String.length t) - Z.of_nat (String.length t))%Z
    with (Z.of_nat (String.length s)) by lia.
  destruct (Z.ltb_spec (Z.of_nat (String.length s)) 0); [lia|].
  rewrite Nat2Z.id, substring_append. apply String.eqb_refl.
Qed.

(** The template path that is looked up always ends in [.md]; it is the
    configured path, completed by [.md] when it does not end so already;
    and a path that went through once comes out unchanged. *)
Theorem templatePath_ends_in_md (template : option string) (p : string) :
  Settings.templatePath template = Some p →
  Settings.endsWith p ".md" = true ∧
  (∃ t, template = Some t ∧ t ≠ "" ∧
        (p = t ∨ (p = t +:+ ".md" ∧ Settings.endsWith t ".md" = false))) ∧
  Settings.templatePath (Some p) = Some p.
Proof.
  destruct template as [t|]; simpl; [|done].
  destruct (String.eqb_spec t "") as [|Hne]; [done|].
  destruct (Settings.endsWith t ".md") eqn:Hmd; simpl; intros [= <-].
  - split_and!; [done|by exists t; auto|].
    destruct (String.eqb_spec t ""); [done|]. by rewrite Hmd.
  - split_and!; [apply endsWith_append|by exists t; auto|].
    destruct (String.eqb_spec (t +:+ ".md") "") as [Hemp|_].
    + by destruct t.
    + by rewrite endsWith_append.
Qed.

Lemma indexOf_from_absent (i : Z) (x : string) (a : list string) :
  (0 ≤ i)%Z → JS.indexOf_from i x a = (-1)%Z ↔ x ∉ a.
Proof.
  revert i. induction a as [|y a IH]; intros i Hi; simpl.
  - split; [intros _; apply not_elem_of_nil|done].
  - rewrite not_elem_of_cons. destruct (String.eqb_spec y x) as [->|Hne].
    + split; [lia|by intros [? _]].
    + rewrite IH by lia. split; [intros ?; split; [congruence|done]|by intros [_ ?]].
Qed.

Lemma indexOf_absent (a : list string) (x : string) :
  JS.indexOf a x = (-1)%Z ↔ x ∉ a.
Proof. by apply indexOf_from_absent. Qed.

(** A directory is offered for a new calendar exactly when it is the path
    of a loaded folder and not in the list of used directories; without a
    list from the caller, the used directories are those of the local
    calendars, an empty directory name not counting. *)
Theorem offered_directories (files : list Settings.AbstractFile)
    (listUsedDirectories : option (list string))
    (calendarSources : list Settings.CalendarInfo) (dir : string) :
  let used := Settings.usedDirectories listUsedDirectories calendarSources in
  (dir ∈ Settings.offered files used ↔
   (∃ f, f ∈ files ∧ Settings.isFolder f = true ∧ Settings.path f = dir) ∧ dir ∉ used) ∧
  (listUsedDirectories = None →
   (dir ∈ used ↔
    dir ≠ "" ∧ ∃ s, s ∈ calendarSources ∧ Settings.type s = "local" ∧
                    Settings.directory s = Some dir)).
Proof.
  intros used. split.
  - unfold Settings.offered, Settings.directories.
    rewrite elem_of_filter_bool, list_elem_of_fmap.
    rewrite <-indexOf_absent. split.
    + intros [(f & -> & [Hin Hf]%elem_of_filter_bool) Hidx%Z.eqb_eq]. split; [|done].
      by exists f.
    + intros [(f & Hin & Hf & <-) Hidx]. split; [|by apply Z.eqb_eq].
      exists f. split; [done|]. by apply elem_of_filter_bool.
  - intros ->. subst used. simpl. rewrite list_elem_of_omap. split.
    + intros (v & (s & -> & Hs)%list_elem_of_fmap & Hv).
      unfold Settings.truthy, Settings.localDirectory in Hv.
      destruct (String.eqb_spec (Settings.type s) "local") as [Hty|]; [|done].
      destruct (Settings.directory s) as [d|] eqn:Hd; [|done].
      destruct (String.eqb_spec d "") as [|Hne]; [done|]. injection Hv as ->.
      split; [done|]. by exists s.
    + intros (Hne & s & Hs & Hty & Hd). exists (Some dir). split.
      * apply list_elem_of_fmap. exists s. split; [|done].
        unfold Settings.localDirectory. by rewrite Hty, Hd.
      * simpl. by destruct (String.eqb_spec dir "").
Qed.

End SettingsFacts.
(** * The claims on the sample calendars *)

Import Sample.

#[export] Instance luxon_laws : LuxonLaws.
Proof.
  split; intros tstr z; simpl; unfold inZone, isoParse;
    (destruct (zoneOffset z) as [off|] eqn:Hz; [|done]);
    destruct (parseISO tstr) as [[local utc]|]; by rewrite ?Hz.
Qed.

(** The floating Monday morning: the day shift is 6, so [MO] becomes [SU],
    and [1MO] and [SU] both become [SA]. *)
Lemma C1_byday_rotation_witness :
  adjustedRule builtin earlyMonday = Ok (Some (weekly ["SU"; "SA"; "SA"])) ∧
  ∀ o, icsToOFC builtin earlyMonday = Ok o →
       ∃ id title rule skipDates startDate timing,
         o = RRule id title rule skipDates startDate timing ∧
         rrulestr (ICAL.Recur_toString (weekly ["SU"; "SA"; "SA"])) = Ok rule.
Proof.
  exact (C1_byday_rotation builtin earlyMonday (dateTime 2024 1 8 8 0 0 None)
           1704668400000 (weekly ["MO"; "1MO"; "SU"]) eq_refl eq_refl eq_refl).
Defined.

(** C1 as stated fails on two calendars read on a host in Seoul.  A start
    on Monday 20:00 UTC, written in UTC, has the same weekday in UTC and
    in its own zone, so the day shift of the claim is 0 and the rule
    should stay; the program turns BYDAY=MO into BYDAY=SU.  A start on
    Monday 20:00 in Los Angeles is a Tuesday in UTC, so the day shift of
    the claim is 1 and the rule should become BYDAY=TU; the program leaves
    BYDAY=MO. *)
Lemma C1_source_zone_counterexample :
  (ICAL.toJSDate (ICAL.fromData builtin (utc 1 20)) = Ok 1704139200000%Z ∧
   Claimed.dayShift (ICAL.fromData builtin (utc 1 20)) 1704139200000 = 0%Z ∧
   Claimed.rotateRule 0 (weekly ["MO"]) = weekly ["MO"] ∧
   adjustedRule builtin mondayEveningUTC = Ok (Some (weekly ["SU"])) ∧
   (getEventsFromICS utc_weekly_ics builtin).1 =
     Ok [RRule "ics::u::2024-01-02::recurring" (Some "Sync")
               "RRULE:FREQ=WEEKLY;BYDAY=SU" [] (Some "2024-01-02")
               (Timed (Some "05:00") (Some "06:00"))]) ∧
  (let start := ICAL.fromData withLosAngeles
                  (dateTime 2024 1 1 20 0 0 (Some "America/Los_Angeles")) in
   ICAL.toJSDate start = Ok 1704168000000%Z ∧
   Claimed.dayShift start 1704168000000 = 1%Z ∧
   Claimed.rotateRule 1 (weekly ["MO"]) = weekly ["TU"] ∧
   adjustedRule withLosAngeles mondayEveningLA = Ok (Some (weekly ["MO"])) ∧
   (getEventsFromICS la_weekly_ics builtin).1 =
     Ok [RRule "ics::la::2024-01-02::recurring" (Some "Standup")
               "RRULE:FREQ=WEEKLY;BYDAY=MO" [] (Some "2024-01-02")
               (Timed (Some "13:00") (Some "14:00"))]).
Proof. split; vm_compute; by repeat split. Qed.

Lemma C10_rewritten_tokens_witness :
  ∃ fv' tokens',
    adjustedRule builtin earlyMonday = Ok (Some fv') ∧
    JS.get (ICAL.parts fv') "BYDAY" = Some tokens' ∧
    Forall (λ q, q ∈ WEEK_DAYS) tokens' ∧
    Forall2 (λ p q, p ∉ WEEK_DAYS →
                    JS.indexOf WEEK_DAYS p = (-1)%Z ∧
                    WEEK_DAYS !! Z.to_nat ((6 + 6) mod 7) = Some q)
            ["MO"; "1MO"; "SU"] tokens'.
Proof.
  refine (C10_rewritten_tokens builtin earlyMonday (dateTime 2024 1 8 8 0 0 None)
            1704668400000 (weekly ["MO"; "1MO"; "SU"]) ["MO"; "1MO"; "SU"] _ _ _ _ _);
    by vm_compute.
Defined.



(** The series [a] with one moved occurrence: the date of the override is
    in the exclusion list of the series, and both records are returned. *)
Lemma C4_override_reconciled_witness :
  let out :=
    [RRule "ics::a::2024-01-01::recurring" (Some "A") "RRULE:FREQ=DAILY"
           [Some "2024-01-03"] (Some "2024-01-01")
           (Timed (Some "10:00") (Some "11:00"));
     Single "ics::a::2024-01-03::single" (Some "A moved")
            (Some "2024-01-03") None (Timed (Some "12:00") (Some "13:00"))] in
  (getEventsFromICS series_ics builtin).1 = Ok out ∧
  ∃ rec, rec ∈ out ∧ isRRule rec = true ∧
         ofc_id rec = "ics::a::2024-01-01::recurring" ∧
         Some "2024-01-03" ∈ ofc_skipDates rec ∧
         Single "ics::a::2024-01-03::single" (Some "A moved")
                (Some "2024-01-03") None (Timed (Some "12:00") (Some "13:00")) ∈ out.
Proof.
  intros out. split; [by vm_compute|].
  destruct (C4_override_reconciled builtin seriesEvents out)
    as (M & exc & Hrec & _ & _ & Hmerge & _); [by vm_compute|].
  destruct (Hmerge (series "a" "A" 1) (override "a" "A moved" 3 None)
              (RRule "ics::a::2024-01-01::recurring" (Some "A") "RRULE:FREQ=DAILY"
                     [] (Some "2024-01-01") (Timed (Some "10:00") (Some "11:00")))
              "ics::a::2024-01-03::single" (Some "A moved") (Some "2024-01-03") None
              (Timed (Some "12:00") (Some "13:00")))
    as (rec & Hget & _ & Hrr & Hid & Hdate & _ & Hvrec & Hvsingle).
  - exists [], [override "a" "A moved" 3 None]. split_and!; [done..|].
    repeat constructor. by vm_compute.
  - apply elem_of_cons. right. left.
  - done.
  - done.
  - by vm_compute.
  - done.
  - by vm_compute.
  - vm_compute in Hrec. injection Hrec as <- <-.
    vm_compute in Hget. injection Hget as <-.
    exists (RRule "ics::a::2024-01-01::recurring" (Some "A") "RRULE:FREQ=DAILY"
                  [Some "2024-01-03"] (Some "2024-01-01")
                  (Timed (Some "10:00") (Some "11:00"))).
    split_and!; [by apply Hvrec|done..|by apply Hvsingle].
Defined.

(** C4 as stated fails on three calendars.  Base events with the unique
    identifiers 2 and 1, in that order, come out as 1 and 2: the order is
    not the encounter order.  An override of series [a] that carries a
    rule of its own converts to a recurring event: the series keeps an
    empty exclusion list, and no single-occurrence record is returned.
    With the base events [a], [b], [a], the second [a] comes out first,
    before [b], and the first [a], a recurring event with the identifier
    of the override, is not returned at all. *)
Lemma C4_order_and_merge_counterexample :
  (getEventsFromICS numeric_ics builtin).1 =
    Ok [Single "ics::1::2024-01-02::single" (Some "One")
               (Some "2024-01-02") None (Timed (Some "10:00") (Some "11:00"));
        Single "ics::2::2024-01-01::single" (Some "Two")
               (Some "2024-01-01") None (Timed (Some "10:00") (Some "11:00"))] ∧
  (getEventsFromICS recurring_override_ics builtin).1 =
    Ok [RRule "ics::a::2024-01-01::recurring" (Some "A") "RRULE:FREQ=DAILY"
              [] (Some "2024-01-01") (Timed (Some "10:00") (Some "11:00"));
        RRule "ics::a::2024-01-03::recurring" (Some "A from now on")
              "RRULE:FREQ=DAILY" [] (Some "2024-01-03")
              (Timed (Some "12:00") (Some "13:00"))] ∧
  (getEventsFromICS duplicates_ics builtin).1 =
    Ok [RRule "ics::a::2024-01-05::recurring" (Some "A new") "RRULE:FREQ=DAILY"
              [Some "2024-01-07"] (Some "2024-01-05")
              (Timed (Some "10:00") (Some "11:00"));
        Single "ics::b::2024-01-02::single" (Some "B") (Some "2024-01-02") None
               (Timed (Some "10:00") (Some "11:00"));
        Single "ics::a::2024-01-07::single" (Some "A moved")
               (Some "2024-01-07") None (Timed (Some "12:00") (Some "13:00"))].
Proof. by vm_compute. Qed.



Lemma C6_orphan_override_witness :
  ∃ exc out,
    reconcile builtin ([series "a" "A" 1] ++ override "zz" "Lost" 3 None :: []) =
      Ok ([("a", RRule "ics::a::2024-01-01::recurring" (Some "A") "RRULE:FREQ=DAILY"
                       [] (Some "2024-01-01") (Timed (Some "10:00") (Some "11:00")))],
          exc) ∧
    Single "ics::zz::2024-01-03::single" (Some "Lost") (Some "2024-01-03") None
           (Timed (Some "12:00") (Some "13:00")) ∈ exc.*2 ∧
    convertEvents builtin ([series "a" "A" 1] ++ override "zz" "Lost" 3 None :: []) = Ok out ∧
    ∀ v, validateEvent (Single "ics::zz::2024-01-03::single" (Some "Lost")
                               (Some "2024-01-03") None
                               (Timed (Some "12:00") (Some "13:00"))) = Some v →
         v ∈ out.
Proof.
  refine (C6_orphan_override builtin [series "a" "A" 1] [] (override "zz" "Lost" 3 None)
            _ _ [] _ _ _ _).
  - done.
  - repeat constructor. by vm_compute.
  - by vm_compute.
  - by vm_compute.
Defined.

(** C6 as stated fails on a calendar with an override of an unknown
    series: the override is returned as a single event. *)
Lemma C6_orphan_kept_counterexample :
  (getEventsFromICS orphan_ics builtin).1 =
    Ok [RRule "ics::a::2024-01-01::recurring" (Some "A") "RRULE:FREQ=DAILY"
              [] (Some "2024-01-01") (Timed (Some "10:00") (Some "11:00"));
        Single "ics::zz::2024-01-03::single" (Some "Lost")
               (Some "2024-01-03") None (Timed (Some "12:00") (Some "13:00"))].
Proof. by vm_compute. Qed.


Lemma allDay_has_no_times_witness :
  ofc_timing (Single "ics::d::2024-01-01::single" (Some "New Year") (Some "2024-01-01")
                     None AllDay) = AllDay.
Proof.
  refine (allDay_has_no_times builtin newYear (date 2024 1 1) _ _ _ _); by vm_compute.
Defined.

Lemma single_endDate_when_distinct_witness :
  ∃ id title date endDate timing,
    Single "ics::x::2024-01-02::single" (Some "Call") (Some "2024-01-02") None
           (Timed (Some "13:00") (Some "23:00")) = Single id title date endDate timing ∧
    (endDate = None ∨ (endDate ≠ date ∧ specifiesEnd crossZone = true)).
Proof.
  refine (single_endDate_when_distinct withLosAngeles crossZone _ _ _); by vm_compute.
Defined.

(** The all-day event of the specification's first example. *)
Example all_day_single :
  (getEventsFromICS all_day_ics builtin).1 =
    Ok [Single "ics::d::2024-01-01::single" (Some "New Year") (Some "2024-01-01")
               None AllDay].
Proof. by vm_compute. Qed.

(** A calendar whose first VEVENT has no DTSTART, and a text that is no
    calendar. *)
Example no_start_skipped :
  (getEventsFromICS no_start_ics builtin).1 =
    Ok [Single "ics::b::2024-01-02::single" (Some "B") (Some "2024-01-02") None
               (Timed (Some "10:00") (Some "11:00"))] ∧
  getEventsFromICS "BEGIN:VCALENDAR" builtin = (Throw ParserError, builtin).
Proof. by vm_compute. Qed.

(** * Further properties on sample calendars *)

(** An all-day series, every Monday from 2024-01-08. *)
Definition weeklyAllDay : ICAL.Event :=
  {| ICAL.uid := Some "w"; ICAL.summary := Some "Review";
     ICAL.startDate := Some (date 2024 1 8); ICAL.endDate := Some (date 2024 1 9);
     ICAL.recurrenceId := None; ICAL.rrule := Some (weekly ["MO"]);
     ICAL.hasRDate := false; ICAL.exdate := [];
     ICAL.hasDtend := false; ICAL.hasDuration := false |}.

(** A daily series with one EXDATE, and two overrides that both moved an
    occurrence to 2024-01-03. *)
Definition seriesWithExdate : ICAL.Event :=
  {| ICAL.uid := Some "a"; ICAL.summary := Some "A";
     ICAL.startDate := Some (utc 1 1); ICAL.endDate := Some (utc 1 2);
     ICAL.recurrenceId := None; ICAL.rrule := Some daily;
     ICAL.hasRDate := false; ICAL.exdate := [utc 2 1];
     ICAL.hasDtend := true; ICAL.hasDuration := false |}.

Definition exdateEvents : list ICAL.Event :=
  [seriesWithExdate; override "a" "A moved" 3 None;
   vevent "a" "A moved too" (utc 3 5) (utc 3 6) None (Some (utc 4 1))].

(** A component with two occurrences given by DTSTART and RDATE, without
    RRULE, in a calendar with an ordinary event. *)
Definition rdateOnly : ICAL.Event :=
  {| ICAL.uid := Some "r"; ICAL.summary := Some "Twice";
     ICAL.startDate := Some (utc 1 1); ICAL.endDate := Some (utc 1 2);
     ICAL.recurrenceId := None; ICAL.rrule := None;
     ICAL.hasRDate := true; ICAL.exdate := [];
     ICAL.hasDtend := true; ICAL.hasDuration := false |}.

Definition rdate_ics : string :=
"BEGIN:VCALENDAR
BEGIN:VEVENT
UID:b
SUMMARY:B
DTSTART:20240102T010000Z
DTEND:20240102T020000Z
END:VEVENT
BEGIN:VEVENT
UID:r
SUMMARY:Twice
DTSTART:20240101T010000Z
DTEND:20240101T020000Z
RDATE:20240105T010000Z
END:VEVENT
END:VCALENDAR".

(** The sample platform with a parser that knows [rdate_ics]. *)
Definition rdate_platform : Collaborators := {|
  rrulestr := @rrulestr collaborators;
  validateEvent := @validateEvent collaborators;
  ical_parse text :=
    if String.eqb text rdate_ics
    then Ok (calendar [] [single "b" "B" 2; rdateOnly])
    else Throw ParserError
|}.

(** A meeting from 20:00 to 21:00 in Los Angeles. *)
Definition laMeeting : ICAL.Event :=
  vevent "z" "Review"
    (dateTime 2024 1 1 20 0 0 (Some "America/Los_Angeles"))
    (dateTime 2024 1 1 21 0 0 (Some "America/Los_Angeles"))
    None None.

(** luxon finds no zone in [new IANAZone(undefined)]: the [DateTime] is
    invalid. *)
#[export] Instance luxon_unnamed : LuxonUnnamed := {| fromISOUnnamed _ := None |}.

Lemma shiftDay_round_trip_witness :
  shiftDay (-1) "MO" ∈ WEEK_DAYS ∧ shiftDay (- -1) (shiftDay (-1) "MO") = "MO".
Proof.
  refine (shiftDay_round_trip (-1) "MO" _ _); [lia|]. by left.
Defined.

(** [BYSETPOS] and [BYHOUR] stay where and what they are. *)
Example byday_rewritten_alone :
  let fv := {| ICAL.freq := "MONTHLY"; ICAL.count := Some 5%Z; ICAL.interval := 2;
               ICAL.parts := [("BYSETPOS", ["1"]); ("BYDAY", ["MO"; "FR"]); ("BYHOUR", ["9"])];
               ICAL.until := None; ICAL.wkst := Some "SU" |} in
  ICAL.Recur_toString fv = "FREQ=MONTHLY;COUNT=5;INTERVAL=2;BYSETPOS=1;BYDAY=MO,FR;BYHOUR=9;WKST=SU" ∧
  ICAL.Recur_toString (shiftByDay (-1) fv)
    = "FREQ=MONTHLY;COUNT=5;INTERVAL=2;BYSETPOS=1;BYDAY=SU,TH;BYHOUR=9;WKST=SU".
Proof. by vm_compute. Qed.

(** The ordinary event of [rdate_ics] would convert, and is not returned. *)
Lemma rdate_only_event_aborts_witness :
  ∃ e, (@getEventsFromICS luxon host_in_Seoul rdate_platform rdate_ics builtin).1 = Throw e.
Proof.
  refine (@rdate_only_event_aborts luxon host_in_Seoul rdate_platform rdate_ics builtin
            (calendar [] [single "b" "B" 2; rdateOnly]) rdateOnly _ _ _ _);
    try by vm_compute.
  vm_compute. right. left.
Defined.

Example rdate_only_outcome :
  (@getEventsFromICS luxon host_in_Seoul rdate_platform rdate_ics builtin).1 = Throw TypeError ∧
  icsToOFC builtin (single "b" "B" 2) =
    Ok (Single "ics::b::2024-01-02::single" (Some "B") (Some "2024-01-02") None
               (Timed (Some "10:00") (Some "11:00"))).
Proof. by vm_compute. Qed.

(** A calendar that declares Los Angeles, read when the table holds the
    zones ical.js starts with. *)
Example zone_table_after_la :
  let R := (getEventsFromICS la_weekly_ics builtin).2 in
  R !! "America/Los_Angeles" = Some (ICAL.vtimezone LosAngeles) ∧
  R !! "UTC" = Some ICAL.utcTimezone ∧ R !! "Europe/Berlin" = None.
Proof. by vm_compute. Qed.

(** Monday 20:00 UTC on a host in Seoul: the day shift is -1. *)
Lemma week_shift_is_one_day_witness :
  ((-1)%Z = 0%Z ∨
   (((-1)%Z = 1%Z ∨ (-1)%Z = (-6)%Z) ∧ ∀ p, shiftDay (-1) p = shiftDay 1 p) ∨
   (((-1)%Z = (-1)%Z ∨ (-1)%Z = 6%Z) ∧ ∀ p, shiftDay (-1) p = shiftDay (-1) p)) ∧
  ((∀ t, (0 ≤ JSDate.LocalTZA t true)%Z) → ((-1)%Z = 0 ∨ (-1)%Z = -1 ∨ (-1)%Z = 6)%Z) ∧
  ((∀ t, (JSDate.LocalTZA t true ≤ 0)%Z) → ((-1)%Z = 0 ∨ (-1)%Z = 1 ∨ (-1)%Z = -6)%Z).
Proof.
  refine (week_shift_is_one_day (ICAL.fromData builtin (utc 1 20)) (-1) _ _).
  - intros t. by vm_compute.
  - by vm_compute.
Defined.

(** Every Monday, all day, becomes every Sunday on a host in Seoul. *)
Lemma floating_series_shifts_back_witness :
  adjustedRule builtin weeklyAllDay = Ok (Some (weekly ["SU"])).
Proof.
  refine (floating_series_shifts_back 32400000 builtin weeklyAllDay (date 2024 1 8)
            (weekly ["MO"]) _ _ _ _ _ _); by vm_compute.
Defined.

Example all_day_weekly_series :
  icsToOFC builtin weeklyAllDay =
    Ok (RRule "ics::w::2024-01-08::recurring" (Some "Review") "RRULE:FREQ=WEEKLY;BYDAY=SU"
              [] (Some "2024-01-08") AllDay).
Proof. by vm_compute. Qed.

(** The record of the series lists its EXDATE and then the date the two
    overrides start on, twice; the occurrences they replace, on the 3rd and
    the 4th, are named by their RECURRENCE-ID only. *)
Lemma record_of_last_base_witness :
  let record := RRule "ics::a::2024-01-01::recurring" (Some "A") "RRULE:FREQ=DAILY"
                      [Some "2024-01-02"; Some "2024-01-03"; Some "2024-01-03"]
                      (Some "2024-01-01") (Timed (Some "10:00") (Some "11:00")) in
  ∃ ob,
    icsToOFC builtin seriesWithExdate = Ok ob ∧
    JS.get [("a", record)] (keyOf seriesWithExdate) =
      Some (withSkipDates ob
              (startDateL builtin <$> overridesOf (keyOf seriesWithExdate) exdateEvents)) ∧
    (ICAL.isRecurring seriesWithExdate = false →
     JS.get [("a", record)] (keyOf seriesWithExdate) = Some ob) ∧
    (ICAL.isRecurring seriesWithExdate = true →
     ∃ record', JS.get [("a", record)] (keyOf seriesWithExdate) = Some record' ∧
                isRRule record' = true ∧
                ofc_skipDates record' =
                  ((dateL builtin <$> ICAL.exdate seriesWithExdate) ++
                   (startDateL builtin <$>
                      overridesOf (keyOf seriesWithExdate) exdateEvents))%list).
Proof.
  intros record.
  refine (record_of_last_base builtin exdateEvents [("a", record)]
            [(Some "a", Single "ics::a::2024-01-03::single" (Some "A moved")
                               (Some "2024-01-03") None
                               (Timed (Some "12:00") (Some "13:00")));
             (Some "a", Single "ics::a::2024-01-03::single" (Some "A moved too")
                               (Some "2024-01-03") None
                               (Timed (Some "14:00") (Some "15:00")))]
            seriesWithExdate _ _).
  - by vm_compute.
  - exists [], (tail exdateEvents). split_and!; [done..|].
    repeat constructor; by vm_compute.
Defined.

(** Four components, two of them base events with the same UID: three
    events. *)
Lemma event_count_witness :
  ∃ all,
    allEvents builtin duplicateEvents = Ok all ∧
    length all = (length (remove_dups (keyOf <$> List.filter isBase duplicateEvents)) +
                  length (List.filter isException duplicateEvents))%nat ∧
    (3 ≤ length all ≤ length duplicateEvents)%nat.
Proof.
  refine (event_count builtin duplicateEvents
            [RRule "ics::a::2024-01-05::recurring" (Some "A new") "RRULE:FREQ=DAILY"
                   [Some "2024-01-07"] (Some "2024-01-05")
                   (Timed (Some "10:00") (Some "11:00"));
             Single "ics::b::2024-01-02::single" (Some "B") (Some "2024-01-02") None
                    (Timed (Some "10:00") (Some "11:00"));
             Single "ics::a::2024-01-07::single" (Some "A moved")
                    (Some "2024-01-07") None (Timed (Some "12:00") (Some "13:00"))] _).
  by vm_compute.
Defined.

Lemma recurring_and_single_ids_differ_witness :
  "ics::a::2024-01-01::recurring" ≠ "ics::a::2024-01-03::single".
Proof.
  refine (recurring_and_single_ids_differ builtin (series "a" "A" 1)
            (override "a" "A moved" 3 None)
            (RRule "ics::a::2024-01-01::recurring" (Some "A") "RRULE:FREQ=DAILY"
                   [] (Some "2024-01-01") (Timed (Some "10:00") (Some "11:00")))
            (Single "ics::a::2024-01-03::single" (Some "A moved")
                    (Some "2024-01-03") None (Timed (Some "12:00") (Some "13:00")))
            _ _ _ _); by vm_compute.
Defined.


(** What the two converters make of the meeting, and of an all-day event:
    the earlier one asks luxon for a zone without name and gets no date. *)
Example converters_on_samples :
  icsToOFC withLosAngeles laMeeting =
    Ok (Single "ics::z::2024-01-02::single" (Some "Review") (Some "2024-01-02") None
               (Timed (Some "13:00") (Some "14:00"))) ∧
  icsToOFC builtin newYear =
    Ok (Single "ics::d::2024-01-01::single" (Some "New Year") (Some "2024-01-01")
               None AllDay) ∧
  Legacy.icsToOFC builtin newYear =
    Ok (Single "ics::d::null::single" (Some "New Year") None None AllDay).
Proof. by vm_compute. Qed.

(** The weekly meeting on Monday 20:00 UTC: the same identifier, the rule
    as written from the earlier converter and moved to Sunday from the
    current one. *)
Lemma converters_on_recurring_witness :
  ∃ fv sd id title rule rule' skip skip' date date' tm tm',
    ICAL.rrule mondayEveningUTC = Some fv ∧ ICAL.startDate mondayEveningUTC = Some sd ∧
    RRule "ics::u::2024-01-02::recurring" (Some "Sync") "RRULE:FREQ=WEEKLY;BYDAY=MO" []
          (Some "2024-01-02") (Timed (Some "05:00") (Some "06:00"))
      = RRule id title rule skip date tm ∧
    RRule "ics::u::2024-01-02::recurring" (Some "Sync") "RRULE:FREQ=WEEKLY;BYDAY=SU" []
          (Some "2024-01-02") (Timed (Some "05:00") (Some "06:00"))
      = RRule id title rule' skip' date' tm' ∧
    rrulestr (ICAL.Recur_toString fv) = Ok rule ∧
    (tm = AllDay ↔ tm' = AllDay) ∧
    (dayDiff (ICAL.fromData builtin sd) = Ok 0%Z → rule' = rule).
Proof.
  refine (converters_on_recurring builtin mondayEveningUTC _ _ _ _ _); by vm_compute.
Defined.

Lemma templatePath_ends_in_md_witness :
  Settings.endsWith "templates/daily.md" ".md" = true ∧
  (∃ t, Some "templates/daily" = Some t ∧ t ≠ "" ∧
        ("templates/daily.md" = t ∨
         ("templates/daily.md" = t +:+ ".md" ∧ Settings.endsWith t ".md" = false))) ∧
  Settings.templatePath (Some "templates/daily.md") = Some "templates/daily.md".
Proof.
  refine (templatePath_ends_in_md (Some "templates/daily") "templates/daily.md" _).
  by vm_compute.
Defined.

(** Three folders and a note; one folder holds a local calendar. *)
Example offered_sample :
  let files := [ {| Settings.isFolder := true; Settings.path := "/" |};
                 {| Settings.isFolder := true; Settings.path := "events" |};
                 {| Settings.isFolder := false; Settings.path := "events/a.md" |};
                 {| Settings.isFolder := true; Settings.path := "work" |} ] in
  let sources := [ {| Settings.type := "local"; Settings.directory := Some "events" |};
                   {| Settings.type := "ical"; Settings.directory := None |};
                   {| Settings.type := "local"; Settings.directory := Some "" |} ] in
  Settings.offered files (Settings.usedDirectories None sources) = ["/"; "work"] ∧
  Settings.offered files (Settings.usedDirectories (Some ["work"]) sources) = ["/"; "events"].
Proof. by vm_compute. Qed.
